(** * StripeCheckout: the checkout form of the keychain's purchase flow

    A shallow embedding of
    [packages/keychain/src/components/funding/purchase/StripeCheckout.tsx]:
    the component's three pieces of React state, its submit handler (an
    async function with one [await], a [try]/[catch]/[finally] and two early
    returns), the two widget callbacks, the rendered view, and the currency
    formatting of the cost breakdown on IEEE 754 binary64 numbers. *)

From Stdlib Require Import ZArith List Bool String Ascii Lia.
From Stdlib Require Import Floats.SpecFloat.
Import ListNotations.

Local Open Scope string_scope.
Local Open Scope Z_scope.

(** ** The JavaScript values the component handles *)

Module Js.

(** An [Error] object, as far as the component reads it: its [message]. *)
Record Error : Type := mkError { message : string }.

(** [new Error(m)]: an [undefined] argument creates no own [message]
    property, so reading it yields [Error.prototype.message], the empty
    string. *)
Definition new_Error (m : option string) : Error :=
  match m with
  | Some s => mkError s
  | None => mkError ""
  end.

(** [String.prototype.includes]: [needle] occurs somewhere in [s]. *)
Fixpoint includes (s needle : string) : bool :=
  if String.prefix needle s then true
  else match s with
       | EmptyString => false
       | String _ rest => includes rest needle
       end.

(** The ways the test [(e as Error).message.includes(...)] of the catch
    block fails on a value [e], each by a [TypeError]. *)
Inductive Unreadable : Type :=
| NullValue
    (** [e] is [null]: reading [message] raises *)
| UndefinedValue
    (** [e] is [undefined]: reading [message] raises *)
| UndefinedMessage
    (** [e.message] is [undefined] (a thrown string, number or plain
        object): reading [includes] raises *)
| NullMessage
    (** [e.message] is [null]: reading [includes] raises *)
| NotSearchable.
    (** [e.message] is a number, a boolean or an object without an
        [includes] method, as in [{message: 42}]: the call raises *)

(** What a rejected promise or a [throw] carries, as the catch block can
    tell values apart.  The handler casts it with [e as Error], which
    checks nothing at run time.  Values whose [message] is not a string and
    yet answers [includes] (an array, an object with a method or an accessor
    of its own) are not part of this model. *)
Inductive Thrown : Type :=
| ThrownError (e : Error)
    (** an object whose [message] is a string: an [Error], or a look-alike *)
| ThrownUnreadable (u : Unreadable).

(** The [TypeError] the test raises on an unreadable value, with the text
    V8 gives it; nothing in the component reads that text. *)
Definition TypeError (u : Unreadable) : Error :=
  mkError
    match u with
    | NullValue => "Cannot read properties of null (reading 'message')"
    | UndefinedValue =>
        "Cannot read properties of undefined (reading 'message')"
    | UndefinedMessage =>
        "Cannot read properties of undefined (reading 'includes')"
    | NullMessage => "Cannot read properties of null (reading 'includes')"
    | NotSearchable => "e.message.includes is not a function"
    end.

End Js.

(** ** The payment SDK, as the component uses it *)

Inductive RedirectPolicy : Type := if_required | always.

(** The handle returned by [useElements()]. *)
Record StripeElements : Type := { elements_id : nat }.

Record ConfirmParams : Type := { return_url : string }.

Record ConfirmPaymentOptions : Type := {
  opt_elements : StripeElements;
  confirmParams : ConfirmParams;
  redirect : RedirectPolicy
}.

(** [StripeError]: [message?: string]. *)
Record StripeError : Type := { se_message : option string }.

(** The value [confirmPayment] resolves with; only [res.error] is read. *)
Record PaymentResult : Type := { res_error : option StripeError }.

(** How the promise returned by [confirmPayment] settles. *)
Inductive Settled : Type :=
| Resolves (res : PaymentResult)
| Rejects (v : Js.Thrown).

(** The object returned by [useStripe()]. *)
Record Stripe : Type := { confirmPayment : ConfirmPaymentOptions -> Settled }.

(** ** Component state and effects *)

(** The three [useState] cells. *)
Record UIState : Type := {
  isLoading : bool;
  isSubmitting : bool;
  error : option Js.Error
}.

(** [useState<boolean>(true)], [useState<boolean>(false)],
    [useState<Error>()]. *)
Definition initialState : UIState :=
  {| isLoading := true; isSubmitting := false; error := None |}.

(** Everything the component does to the outside, in program order. *)
Inductive Effect : Type :=
| E_preventDefault
| E_setIsLoading (b : bool)
| E_setIsSubmitting (b : bool)
| E_setError (e : option Js.Error)
| E_confirmPayment (opts : ConfirmPaymentOptions)
| E_onComplete.

Record World : Type := { ui : UIState; log : list Effect }.

(** The payment widget's callbacks; they can run while a confirmation is
    pending, the button (disabled while [isSubmitting]) cannot. *)
Inductive WidgetEvent : Type := Ready | Change.

(** A computation either completes normally or throws. *)
Inductive Completion (A : Type) : Type :=
| Normal (a : A)
| Throw (v : Js.Thrown).
Arguments Normal {A} a.
Arguments Throw {A} v.

Definition M (A : Type) : Type := World -> Completion A * World.

Definition ret {A} (a : A) : M A := fun w => (Normal a, w).

Definition throw {A} (v : Js.Thrown) : M A := fun w => (Throw v, w).

Definition bind {A B} (m : M A) (k : A -> M B) : M B :=
  fun w =>
    match m w with
    | (Normal a, w') => k a w'
    | (Throw v, w') => (Throw v, w')
    end.

Notation "x <- m ;; k" := (bind m (fun x => k))
  (at level 61, m at next level, right associativity).
Notation "m ;; k" := (bind m (fun _ => k))
  (at level 61, right associativity).

(** [try { body } catch (e) { handler e } finally { fin }], for a [fin] that
    completes normally: [fin] runs on every path, and the statement
    completes as [body] did, or as [handler] did when [body] threw. *)
Definition try_catch_finally {A} (body : M A) (handler : Js.Thrown -> M A)
    (fin : M unit) : M A :=
  fun w =>
    let '(c, w1) :=
      match body w with
      | (Normal a, w') => (Normal a, w')
      | (Throw v, w') => handler v w'
      end in
    match fin w1 with
    | (Normal _, w2) => (c, w2)
    | (Throw v, w2) => (Throw v, w2)
    end.

Definition emit (e : Effect) : M unit :=
  fun w => (Normal tt, {| ui := ui w; log := log w ++ [e] |}).

Definition update (f : UIState -> UIState) : M unit :=
  fun w => (Normal tt, {| ui := f (ui w); log := log w |}).

Definition setIsLoading (b : bool) : M unit :=
  emit (E_setIsLoading b) ;;
  update (fun s => {| isLoading := b; isSubmitting := isSubmitting s;
                      error := error s |}).

Definition setIsSubmitting (b : bool) : M unit :=
  emit (E_setIsSubmitting b) ;;
  update (fun s => {| isLoading := isLoading s; isSubmitting := b;
                      error := error s |}).

Definition setError (e : option Js.Error) : M unit :=
  emit (E_setError e) ;;
  update (fun s => {| isLoading := isLoading s;
                      isSubmitting := isSubmitting s; error := e |}).

(** [onReady={() => setIsLoading(false)}] and
    [onChange={() => setError(undefined)}]. *)
Definition onReady : M unit := setIsLoading false.
Definition onChange : M unit := setError None.

Definition deliver (ev : WidgetEvent) : M unit :=
  match ev with
  | Ready => onReady
  | Change => onChange
  end.

Fixpoint deliver_all (evs : list WidgetEvent) : M unit :=
  match evs with
  | [] => ret tt
  | ev :: rest => deliver ev ;; deliver_all rest
  end.

(** [await stripe.confirmPayment(opts)]: the call is made, the handler is
    suspended, the widget events in [pending] are delivered while the
    promise is pending, and the handler resumes with the settlement. *)
Definition await_confirmPayment (stripe : Stripe) (opts : ConfirmPaymentOptions)
    (pending : list WidgetEvent) : M PaymentResult :=
  emit (E_confirmPayment opts) ;;
  deliver_all pending ;;
  match confirmPayment stripe opts with
  | Resolves res => ret res
  | Rejects v => throw v
  end.

(** What the hooks return in the render whose handler runs. *)
Record Hooks : Type := {
  useStripe : option Stripe;
  useElements : option StripeElements
}.

(** The argument of [stripe.confirmPayment], lines 55-61. *)
Definition confirm_options (elements : StripeElements) : ConfirmPaymentOptions :=
  {| opt_elements := elements;
     confirmParams := {| return_url := "http://cartridge.gg" |};
     redirect := if_required |}.

(** What calling a callback of the parent does, besides being called: it
    returns, or it throws. *)
Definition Callback : Type := Completion unit.

Definition call (e : Effect) (cb : Callback) : M unit :=
  emit e ;; (fun w => (cb, w)).

(** [handleSubmit], lines 41-80.  [onComplete] is the prop of that name;
    [pending] lists the widget events that arrive while the confirmation is
    pending. *)
Definition handleSubmit (h : Hooks) (onComplete : Callback)
    (pending : list WidgetEvent) : M unit :=
  emit E_preventDefault ;;
  match useStripe h, useElements h with
  | Some stripe, Some elements =>
      setIsSubmitting true ;;
      try_catch_finally
        (res <- await_confirmPayment stripe (confirm_options elements) pending ;;
         match res_error res with
         | Some err => setError (Some (Js.new_Error (se_message err)))
         | None => call E_onComplete onComplete
         end)
        (fun e =>
           match e with
           | Js.ThrownError err =>
               if Js.includes (Js.message err)
                    "Failed to set the 'href' property"
               then setError (Some (Js.new_Error (Some "Payment unsupported")))
               else setError (Some err)
           | Js.ThrownUnreadable u =>
               throw (Js.ThrownError (Js.TypeError u))
           end)
        (setIsSubmitting false)
  | _, _ => ret tt
  end.

(** Run a handler from state [s] with an empty log. *)
Definition run {A} (m : M A) (s : UIState) : Completion A * World :=
  m {| ui := s; log := [] |}.

Definition state_after {A} (m : M A) (s : UIState) : UIState :=
  ui (snd (run m s)).

Definition effects_of {A} (m : M A) (s : UIState) : list Effect :=
  log (snd (run m s)).

(** ** Numbers: IEEE 754 binary64 and [Number.prototype.toFixed] *)

Module Number.

Definition prec : Z := 53.
Definition emax : Z := 1024.

(** A JavaScript number is a binary64 value. *)
Definition number : Type := spec_float.

(** The number nearest to an integer (exact up to [2^53]). *)
Definition of_Z (z : Z) : number := binary_normalize prec emax z 0 false.

(** [x / y]. *)
Definition div (x y : number) : number := SFdiv prec emax x y.

Definition digit (d : Z) : ascii :=
  ascii_of_nat (48 + Z.to_nat d).

Fixpoint decimal_fuel (fuel : nat) (n : Z) : string :=
  match fuel with
  | O => ""
  | S fuel' =>
      if n <? 10 then String (digit n) ""
      else decimal_fuel fuel' (n / 10) ++ String (digit (n mod 10)) ""
  end.

(** The decimal digits of a non-negative integer, ["0"] for zero.  A
    number has at most as many decimal digits as bits. *)
Definition decimal (n : Z) : string :=
  decimal_fuel (S (Z.to_nat (Z.log2 n))) n.

Fixpoint zeros (k : nat) : string :=
  match k with
  | O => ""
  | S k' => String "0" (zeros k')
  end.

(** The integer [n] for which [n / 10^f - m * 2^e] is as close to zero as
    possible, the larger one when there are two. *)
Definition nearest_scaled (m : positive) (e : Z) (f : nat) : Z :=
  let scaled := Z.pos m * 10 ^ Z.of_nat f in
  if 0 <=? e then scaled * 2 ^ e
  else (2 * scaled + 2 ^ (- e)) / 2 ^ (1 - e).

(** [m * 2^e >= 10^21]. *)
Definition at_least_1e21 (m : positive) (e : Z) : bool :=
  if 0 <=? e then 10 ^ 21 <=? Z.pos m * 2 ^ e
  else 10 ^ 21 * 2 ^ (- e) <=? Z.pos m.

(** Steps 8 to 10 of [toFixed] on the integer [n]: pad with zeros to
    [f + 1] digits and put a point before the last [f]. *)
Definition with_point (n : Z) (f : nat) : string :=
  let m := decimal n in
  match f with
  | O => m
  | S _ =>
      let m := if (String.length m <=? f)%nat
               then zeros (S f - String.length m) ++ m else m in
      let k := String.length m in
      substring 0 (k - f) m ++ "." ++ substring (k - f) f m
  end.

Fixpoint count_digits (fuel : nat) (v : Z) : Z :=
  match fuel with
  | O => 1
  | S fuel' => if v <? 10 then 1 else 1 + count_digits fuel' (v / 10)
  end.

(** [Number::toString] looks for the fewest digits [k], and integers [s] of
    [k] digits and [n] with [s * 10^(n-k)] converting back to the number.
    For a value [v] of [n0] digits this tries [k = 1, 2, ...]: the two
    multiples of [10^(n0-k)] around [v], the upper one being [10^n0] itself
    (one digit, [n = n0 + 1]) when it has a digit more; of two that convert
    back it takes the nearer, the even one when they are equally near.
    The result is [(s, k, n)]. *)
Fixpoint shortest (fuel : nat) (v n0 k : Z) : Z * Z * Z :=
  match fuel with
  | O => (v, n0, n0)
  | S fuel' =>
      let p := 10 ^ (n0 - k) in
      let lo := v / p in
      let hi := lo + 1 in
      let back w := match of_Z w, of_Z v with
                    | S754_finite _ m1 e1, S754_finite _ m2 e2 =>
                        Pos.eqb m1 m2 && (e1 =? e2)
                    | _, _ => false
                    end in
      let upper := if hi =? 10 ^ k then (1, 1, n0 + 1) else (hi, k, n0) in
      match back (lo * p), back (hi * p) with
      | true, true =>
          match v - lo * p ?= hi * p - v with
          | Lt => (lo, k, n0)
          | Gt => upper
          | Eq => if Z.even lo then (lo, k, n0) else upper
          end
      | true, false => (lo, k, n0)
      | false, true => upper
      | false, false => shortest fuel' v n0 (k + 1)
      end
  end.

(** [Number::toString] of an integral value [v >= 10^21]: exponential
    notation. *)
Definition toString_large (v : Z) : string :=
  let n0 := count_digits (S (Z.to_nat (Z.log2 v))) v in
  let '(s, k, n) := shortest (Z.to_nat n0) v n0 1 in
  let ds := decimal s in
  let mant := if k =? 1 then ds
              else substring 0 1 ds ++ "." ++
                   substring 1 (String.length ds - 1) ds in
  mant ++ "e+" ++ decimal (n - 1).

(** [x.toFixed(f)], ECMAScript 21.1.3.3. *)
Definition toFixed (x : number) (f : nat) : string :=
  match x with
  | S754_nan => "NaN"
  | S754_infinity false => "Infinity"
  | S754_infinity true => "-Infinity"
  | S754_zero _ => with_point 0 f
  | S754_finite s m e =>
      (if s then "-" else "") ++
      (if at_least_1e21 m e then toString_large (Z.pos m * 2 ^ e)
       else with_point (nearest_scaled m e f) f)
  end.

End Number.

(** ** The cost breakdown *)

(** [PricingDetails], the fields the component reads. *)
Record PricingDetails : Type := {
  baseCostInCents : Number.number;
  processingFeeInCents : Number.number;
  totalInCents : Number.number
}.

(** [formatCurrency], lines 139-141. *)
Definition formatCurrency (cents : Number.number) : string :=
  "$" ++ Number.toFixed (Number.div cents (Number.of_Z 100)) 2.

(** The three amounts [CostBreakdown] shows. *)
Record CostBreakdownView : Type := {
  cost_text : string;
  fee_text : string;
  total_text : string
}.

Definition CostBreakdown (costInCents processingFeeInCents totalInCents :
    Number.number) : CostBreakdownView :=
  {| cost_text := formatCurrency costInCents;
     fee_text := formatCurrency processingFeeInCents;
     total_text := formatCurrency totalInCents |}.

(** ** The rendered view *)

Record ErrorAlertProps : Type := {
  variant : string;
  title : string;
  description : string
}.

Record ButtonProps : Type := {
  button_isLoading : bool;
  disabled : bool
}.

Record View : Type := {
  errorAlert : option ErrorAlertProps;
  costBreakdown : CostBreakdownView;
  button : ButtonProps
}.

Definition is_null {A} (x : option A) : bool :=
  match x with
  | Some _ => false
  | None => true
  end.

(** The footer of the component's [return], lines 103-123. *)
Definition render (price : PricingDetails) (h : Hooks) (s : UIState) : View :=
  {| errorAlert :=
       match error s with
       | Some err =>
           Some {| variant := "error";
                   title := "Stripe Checkout Error";
                   description := Js.message err |}
       | None => None
       end;
     costBreakdown :=
       CostBreakdown (baseCostInCents price) (processingFeeInCents price)
         (totalInCents price);
     button :=
       {| button_isLoading := isLoading s;
          disabled := isSubmitting s || is_null (useStripe h)
                      || is_null (useElements h) || isLoading s |} |}.

(** ** Reading a run *)

Definition is_onComplete (e : Effect) : bool :=
  match e with
  | E_onComplete => true
  | _ => false
  end.

Definition is_confirmPayment (e : Effect) : bool :=
  match e with
  | E_confirmPayment _ => true
  | _ => false
  end.

Definition is_setError (e : Effect) : bool :=
  match e with
  | E_setError _ => true
  | _ => false
  end.

Definition is_Change (ev : WidgetEvent) : bool :=
  match ev with
  | Change => true
  | Ready => false
  end.

(** How often an effect matching [p] occurs in a log. *)
Definition count (p : Effect -> bool) (l : list Effect) : nat :=
  List.length (filter p l).

(** What one widget event does to the state, and the setter it calls. *)
Definition apply_event (s : UIState) (ev : WidgetEvent) : UIState :=
  match ev with
  | Ready => {| isLoading := false; isSubmitting := isSubmitting s;
                error := error s |}
  | Change => {| isLoading := isLoading s; isSubmitting := isSubmitting s;
                 error := None |}
  end.

Definition event_effect (ev : WidgetEvent) : Effect :=
  match ev with
  | Ready => E_setIsLoading false
  | Change => E_setError None
  end.

(** The error a rejection with an [Error] leaves, lines 71-76. *)
Definition caught_error (e : Js.Error) : Js.Error :=
  if Js.includes (Js.message e) "Failed to set the 'href' property"
  then Js.mkError "Payment unsupported"
  else e.

(** What the catch block leaves when it ran on [v] with [error] being
    [kept]: how the handler completes, [error], and the setter it called. *)
Definition catch_leaves (v : Js.Thrown) (kept : option Js.Error)
    : Completion unit * option Js.Error * list Effect :=
  match v with
  | Js.ThrownError err =>
      (Normal tt, Some (caught_error err),
       [E_setError (Some (caught_error err))])
  | Js.ThrownUnreadable u =>
      (Throw (Js.ThrownError (Js.TypeError u)), kept, [])
  end.

(** What the try and catch blocks leave, by how the confirmation settled
    and what [onComplete] does. *)
Definition attempt_leaves (settled : Settled) (onComplete : Callback)
    (kept : option Js.Error)
    : Completion unit * option Js.Error * list Effect :=
  match settled with
  | Resolves res =>
      match res_error res with
      | Some err =>
          (Normal tt, Some (Js.new_Error (se_message err)),
           [E_setError (Some (Js.new_Error (se_message err)))])
      | None =>
          match onComplete with
          | Normal _ => (Normal tt, kept, [E_onComplete])
          | Throw v =>
              let '(c, e, l) := catch_leaves v kept in
              (c, e, E_onComplete :: l)
          end
      end
  | Rejects v => catch_leaves v kept
  end.

(** The text the catch block looks for, line 71. *)
Definition href_text : string := "Failed to set the 'href' property".

(** [s] contains [needle]: some text, then [needle], then some text. *)
Definition contains (s needle : string) : Prop :=
  exists pre post, s = pre ++ needle ++ post.

(** The spec's rule for a raised error [e]: "Payment unsupported" when its
    message contains the text, [e] as it is otherwise. *)
Inductive surfaced (e : Js.Error) : Js.Error -> Prop :=
| surfaced_unsupported :
    contains (Js.message e) href_text ->
    surfaced e (Js.mkError "Payment unsupported")
| surfaced_as_is :
    ~ contains (Js.message e) href_text -> surfaced e e.

(** What [error] is after the catch block ran on [v], when it was [kept]
    before: an [Error] is surfaced by the rule, an unreadable value leaves
    [error] alone. *)
Definition error_after_catch (v : Js.Thrown) (kept after : option Js.Error)
    : Prop :=
  match v with
  | Js.ThrownError e => exists e', after = Some e' /\ surfaced e e'
  | Js.ThrownUnreadable _ => after = kept
  end.

(** The spec's formatting rule on exact integers: the cents divided by 100,
    with exactly two decimals, after a dollar sign. *)
Definition spec_formatCurrency (cents : Z) : string :=
  "$" ++ Number.decimal (cents / 100) ++ "." ++
  String (Number.digit (cents mod 100 / 10))
    (String (Number.digit (cents mod 10)) "").

(** The largest amount of cents every amount up to which is shown exactly:
    [100 * 2^46]. *)
Definition max_exact_cents : Z := 7036874417766400.

(** ** Sample collaborators *)

(** A handle, and payment objects whose confirmation succeeds, is declined,
    is declined without a message, and is blocked by the iframe sandbox. *)
Definition sample_elements : StripeElements := {| elements_id := 1 |}.

Definition stripe_succeeds : Stripe :=
  {| confirmPayment := fun _ => Resolves {| res_error := None |} |}.

Definition stripe_declines : Stripe :=
  {| confirmPayment := fun _ =>
       Resolves {| res_error := Some {| se_message := Some "card_declined" |} |} |}.

Definition stripe_declines_silently : Stripe :=
  {| confirmPayment := fun _ =>
       Resolves {| res_error := Some {| se_message := None |} |} |}.

Definition stripe_blocked : Stripe :=
  {| confirmPayment := fun _ =>
       Rejects (Js.ThrownError (Js.mkError
         "Failed to set the 'href' property on 'Location'")) |}.

(** A confirmation that rejects with a string, as [throw "timeout"] does. *)
Definition stripe_throws_string : Stripe :=
  {| confirmPayment := fun _ =>
       Rejects (Js.ThrownUnreadable Js.UndefinedMessage) |}.

(** An [onComplete] that returns, and one that throws an [Error]. *)
Definition returns : Callback := Normal tt.

Definition parent_fails : Callback :=
  Throw (Js.ThrownError (Js.mkError "parent failed")).

Definition sample_hooks (stripe : Stripe) : Hooks :=
  {| useStripe := Some stripe; useElements := Some sample_elements |}.

(** The prices of the spec's example. *)
Definition sample_price : PricingDetails :=
  {| baseCostInCents := Number.of_Z 999;
     processingFeeInCents := Number.of_Z 58;
     totalInCents := Number.of_Z 1057 |}.

(** The state after the widget reported ready, with nothing going on. *)
Definition idle : UIState :=
  {| isLoading := false; isSubmitting := false; error := None |}.

(** The state after a declined attempt. *)
Definition declined : UIState :=
  {| isLoading := false; isSubmitting := false;
     error := Some (Js.mkError "card_declined") |}.

(** ** Sequences of events *)

(** What happens to a mounted component: the widget calls back, or the
    button's [onClick] runs [handleSubmit] with the hooks and the
    [onComplete] of the current render (and the widget events that arrive
    while it awaits). *)
Inductive Event : Type :=
| Widget (ev : WidgetEvent)
| Submit (h : Hooks) (onComplete : Callback) (pending : list WidgetEvent).

Definition handle (ev : Event) : M unit :=
  match ev with
  | Widget w => deliver w
  | Submit h onComplete pending => handleSubmit h onComplete pending
  end.

(** The state after a sequence of events, each handled to its end. *)
Definition after_events (evs : list Event) (s : UIState) : UIState :=
  fold_left (fun s ev => state_after (handle ev) s) evs s.

Definition is_Ready (ev : WidgetEvent) : bool :=
  match ev with
  | Ready => true
  | Change => false
  end.

(** The event is, or carries, a ready callback of the widget. *)
Definition mentions_Ready (ev : Event) : bool :=
  match ev with
  | Widget w => is_Ready w
  | Submit _ _ pending => existsb is_Ready pending
  end.

(** ** The state at a point of a run *)

(** What one logged effect does to the state: the three setters write their
    cell, the other effects leave the state alone. *)
Definition apply_effect (s : UIState) (e : Effect) : UIState :=
  match e with
  | E_setIsLoading b =>
      {| isLoading := b; isSubmitting := isSubmitting s; error := error s |}
  | E_setIsSubmitting b =>
      {| isLoading := isLoading s; isSubmitting := b; error := error s |}
  | E_setError e =>
      {| isLoading := isLoading s; isSubmitting := isSubmitting s;
         error := e |}
  | E_preventDefault | E_confirmPayment _ | E_onComplete => s
  end.

(** The state reached from [s] once the effects of [l] have happened. *)
Definition replay (l : list Effect) (s : UIState) : UIState :=
  fold_left apply_effect l s.

Definition is_setIsSubmitting (e : Effect) : bool :=
  match e with
  | E_setIsSubmitting _ => true
  | _ => false
  end.

Definition is_preventDefault (e : Effect) : bool :=
  match e with
  | E_preventDefault => true
  | _ => false
  end.

(** ** Reading a displayed amount *)

Definition digit_value (ch : ascii) : option Z :=
  let n := nat_of_ascii ch in
  if ((48 <=? n) && (n <=? 57))%nat then Some (Z.of_nat n - 48) else None.

(** The integer spelled by the decimal digits of [s], other characters
    skipped, continuing from [acc]. *)
Fixpoint digits_value (acc : Z) (s : string) : Z :=
  match s with
  | EmptyString => acc
  | String ch rest =>
      match digit_value ch with
      | Some d => digits_value (10 * acc + d) rest
      | None => digits_value acc rest
      end
  end.

(** * Properties *)

(** ** The submit handler *)

Section Handler.

Variables (stripe : Stripe) (elements : StripeElements)
  (onComplete : Callback).

(** The hooks of a render in which both dependencies are available. *)
Let ready_hooks : Hooks :=
  {| useStripe := Some stripe; useElements := Some elements |}.

Lemma deliver_all_run (evs : list WidgetEvent) (w : World) :
  deliver_all evs w =
  (Normal tt, {| ui := fold_left apply_event evs (ui w);
                 log := log w ++ map event_effect evs |}).
Proof.
  revert w; induction evs as [|ev evs IH]; intros [s l]; simpl.
  - now rewrite app_nil_r.
  - destruct ev; cbn; rewrite IH; cbn; now rewrite <- app_assoc.
Qed.

Lemma pending_isSubmitting (evs : list WidgetEvent) (s : UIState) :
  isSubmitting (fold_left apply_event evs s) = isSubmitting s.
Proof.
  revert s; induction evs as [|[] evs IH]; intros s; simpl;
    [reflexivity | rewrite IH .. ]; reflexivity.
Qed.

Lemma pending_error (evs : list WidgetEvent) (s : UIState) :
  error (fold_left apply_event evs s) =
  if existsb is_Change evs then None else error s.
Proof.
  revert s; induction evs as [|[] evs IH]; intros s; simpl;
    [reflexivity | rewrite IH .. ]; simpl; now destruct (existsb _ _).
Qed.

Lemma pending_isLoading (evs : list WidgetEvent) (s : UIState) :
  isLoading (fold_left apply_event evs s) =
  isLoading s && negb (existsb is_Ready evs).
Proof.
  revert s; induction evs as [|[] evs IH]; intros s; simpl.
  - now rewrite andb_true_r.
  - rewrite IH; simpl; now rewrite andb_false_r.
  - now rewrite IH.
Qed.

Lemma pending_effects (p : Effect -> bool) (evs : list WidgetEvent) :
  p (E_setIsLoading false) = false -> p (E_setError None) = false ->
  filter p (map event_effect evs) = [].
Proof.
  intros H1 H2; induction evs as [|[] evs IH]; simpl;
    [reflexivity | rewrite H1 | rewrite H2]; exact IH.
Qed.

(** The whole run of a valid submission, by what the try and catch blocks
    leave. *)
Lemma handleSubmit_run (pending : list WidgetEvent) (s : UIState) :
  run (handleSubmit ready_hooks onComplete pending) s =
  let s1 := fold_left apply_event pending
              {| isLoading := isLoading s; isSubmitting := true;
                 error := error s |} in
  let '(c, e, l) :=
    attempt_leaves (confirmPayment stripe (confirm_options elements))
      onComplete (error s1) in
  (c, {| ui := {| isLoading := isLoading s1; isSubmitting := false;
                  error := e |};
         log := ([E_preventDefault; E_setIsSubmitting true;
                  E_confirmPayment (confirm_options elements)]
                 ++ map event_effect pending)
                ++ l ++ [E_setIsSubmitting false] |}).
Proof.
  unfold run, handleSubmit, ready_hooks, try_catch_finally,
    await_confirmPayment, call, setIsSubmitting, setError, bind, emit,
    update, attempt_leaves, catch_leaves, caught_error.
  cbn -[confirm_options Js.includes].
  rewrite deliver_all_run.
  cbn -[confirm_options Js.includes].
  destruct (confirmPayment stripe (confirm_options elements))
    as [[[err|]]|[err|u]];
    [ | destruct onComplete as [[]|[err|u]] | | ];
    cbn -[confirm_options Js.includes];
    try destruct (Js.includes _ _);
    cbn -[confirm_options];
    repeat (rewrite <- app_assoc; cbn [app]); reflexivity.
Qed.

End Handler.

(** The try and catch blocks call neither [preventDefault] nor
    [confirmPayment] nor [setIsSubmitting] nor [setIsLoading]. *)
Lemma attempt_effects (p : Effect -> bool) (settled : Settled)
    (onComplete : Callback) (kept : option Js.Error) :
  (forall e, p (E_setError e) = false) -> p E_onComplete = false ->
  filter p (snd (attempt_leaves settled onComplete kept)) = [].
Proof.
  intros H1 H2.
  destruct settled as [[[err|]]|[err|u]];
    [ | destruct onComplete as [[]|[err|u]] | | ];
    cbn; rewrite ?H1, ?H2; reflexivity.
Qed.

(** [onComplete] is called once after a resolution without error, and not
    otherwise. *)
Lemma attempt_onComplete (settled : Settled) (onComplete : Callback)
    (kept : option Js.Error) :
  List.length
    (filter is_onComplete (snd (attempt_leaves settled onComplete kept))) =
  match settled with
  | Resolves {| res_error := None |} => 1%nat
  | _ => 0%nat
  end.
Proof.
  destruct settled as [[[err|]]|[err|u]];
    [ | destruct onComplete as [[]|[err|u]] | | ]; reflexivity.
Qed.

Lemma prefix_append (a b : string) : String.prefix a (a ++ b) = true.
Proof.
  induction a as [|c a IH]; simpl; [now destruct b|].
  now destruct (ascii_dec c c).
Qed.

Lemma prefix_split (a s : string) :
  String.prefix a s = true -> exists b, s = a ++ b.
Proof.
  revert s; induction a as [|c a IH]; intros s H.
  - now exists s.
  - destruct s as [|c' s]; [discriminate|]; simpl in H.
    destruct (ascii_dec c c') as [<-|]; [|discriminate].
    destruct (IH s H) as [b ->]; now exists b.
Qed.

(** [includes] holds exactly of the strings that contain the needle as a
    contiguous part. *)
Lemma includes_iff (s needle : string) :
  Js.includes s needle = true <-> exists pre post, s = pre ++ needle ++ post.
Proof.
  split.
  - induction s as [|c s IH]; cbn [Js.includes].
    + destruct (String.prefix needle "") eqn:Hp; [|intros H; discriminate H].
      intros _; destruct (prefix_split _ _ Hp) as [b Hb].
      now exists "", b.
    + destruct (String.prefix needle (String c s)) eqn:Hp.
      * intros _; destruct (prefix_split _ _ Hp) as [b Hb].
        now exists "", b.
      * intros H; destruct (IH H) as (pre & post & ->).
        now exists (String c pre), post.
  - intros (pre & post & ->).
    induction pre as [|c pre IH].
    + change ("" ++ needle ++ post) with (needle ++ post).
      pose proof (prefix_append needle post) as Hp.
      destruct (needle ++ post); cbn [Js.includes]; now rewrite Hp.
    + change (String c pre ++ needle ++ post)
        with (String c (pre ++ needle ++ post)).
      cbn [Js.includes]; rewrite IH.
      now destruct (String.prefix needle (String c (pre ++ needle ++ post))).
Qed.

(** The catch block follows the spec's rule for a raised [Error]. *)
Lemma caught_error_surfaced (e : Js.Error) : surfaced e (caught_error e).
Proof.
  unfold caught_error.
  destruct (Js.includes (Js.message e) "Failed to set the 'href' property")
    eqn:Hin.
  - apply surfaced_unsupported, includes_iff, Hin.
  - apply surfaced_as_is; intros Hc; apply includes_iff in Hc.
    unfold href_text in Hc; congruence.
Qed.

Lemma catch_leaves_error (v : Js.Thrown) (kept : option Js.Error) :
  error_after_catch v kept (snd (fst (catch_leaves v kept))).
Proof.
  destruct v as [e|u]; cbn; [|reflexivity].
  exists (caught_error e); split; [reflexivity|apply caught_error_surfaced].
Qed.

Ltac handler_run :=
  unfold state_after, effects_of; rewrite handleSubmit_run;
  match goal with
  | H : confirmPayment _ _ = _ |- _ => rewrite H
  end.

Lemma last_setIsSubmitting (l1 l2 : list Effect) (x d : Effect) :
  last (l1 ++ l2 ++ [x]) d = x.
Proof. rewrite app_assoc; apply last_last. Qed.

Section Runs.

Variables (stripe : Stripe) (elements : StripeElements)
  (onComplete : Callback) (pending : list WidgetEvent) (s : UIState).

Let m : M unit :=
  handleSubmit {| useStripe := Some stripe; useElements := Some elements |}
    onComplete pending.

Let attempt :=
  attempt_leaves (confirmPayment stripe (confirm_options elements))
    onComplete
    (if existsb is_Change pending then None else error s).

(** The parts of a valid run, read off [handleSubmit_run]. *)
Lemma run_completion : fst (run m s) = fst (fst attempt).
Proof.
  subst m attempt; rewrite handleSubmit_run; cbv zeta.
  rewrite pending_error; cbn [error].
  destruct (attempt_leaves _ _ _) as [[c e] l]; reflexivity.
Qed.

Lemma run_error : error (state_after m s) = snd (fst attempt).
Proof.
  subst m attempt; unfold state_after; rewrite handleSubmit_run; cbv zeta.
  rewrite pending_error; cbn [error].
  destruct (attempt_leaves _ _ _) as [[c e] l]; reflexivity.
Qed.

Lemma run_isSubmitting : isSubmitting (state_after m s) = false.
Proof.
  subst m; clear attempt; unfold state_after; rewrite handleSubmit_run.
  cbv zeta.
  destruct (attempt_leaves _ _ _) as [[c e] l]; reflexivity.
Qed.

Lemma run_isLoading :
  isLoading (state_after m s) = isLoading s && negb (existsb is_Ready pending).
Proof.
  subst m; clear attempt; unfold state_after; rewrite handleSubmit_run.
  cbv zeta.
  destruct (attempt_leaves _ _ _) as [[c e] l]; cbn [ui snd isLoading].
  now rewrite pending_isLoading.
Qed.

Lemma run_effects :
  effects_of m s =
  (([E_preventDefault; E_setIsSubmitting true;
     E_confirmPayment (confirm_options elements)]
    ++ map event_effect pending)
   ++ snd attempt ++ [E_setIsSubmitting false])%list.
Proof.
  subst m attempt; unfold effects_of; rewrite handleSubmit_run; cbv zeta.
  rewrite pending_error; cbn [error].
  destruct (attempt_leaves _ _ _) as [[c e] l]; reflexivity.
Qed.

Lemma run_last :
  last (effects_of m s) E_preventDefault = E_setIsSubmitting false.
Proof. rewrite run_effects; apply last_setIsSubmitting. Qed.

Lemma run_count (p : Effect -> bool) :
  p (E_setIsLoading false) = false ->
  (forall e, p (E_setError e) = false) -> p E_onComplete = false ->
  count p (effects_of m s) =
  count p [E_preventDefault; E_setIsSubmitting true;
           E_confirmPayment (confirm_options elements);
           E_setIsSubmitting false].
Proof.
  intros H1 H2 H3; unfold count; rewrite run_effects, !filter_app.
  subst attempt; rewrite pending_effects, attempt_effects by auto.
  rewrite app_nil_r; cbn [app].
  now rewrite <- filter_app.
Qed.

Lemma run_onComplete :
  count is_onComplete (effects_of m s) =
  match confirmPayment stripe (confirm_options elements) with
  | Resolves {| res_error := None |} => 1%nat
  | _ => 0%nat
  end.
Proof.
  unfold count; rewrite run_effects, !filter_app, !length_app.
  rewrite pending_effects by reflexivity.
  subst attempt; rewrite attempt_onComplete; cbn; lia.
Qed.

End Runs.

(** C1, as stated, fails: [onComplete] is called inside the [try], so when
    it throws after a successful confirmation, the catch block displays what
    it threw although no error was set before. *)
Lemma onComplete_failure_is_displayed :
  let m := handleSubmit (sample_hooks stripe_succeeds) parent_fails [] in
  error idle = None /\
  effects_of m idle =
    [E_preventDefault; E_setIsSubmitting true;
     E_confirmPayment (confirm_options sample_elements);
     E_onComplete; E_setError (Some (Js.mkError "parent failed"));
     E_setIsSubmitting false] /\
  error (state_after m idle) = Some (Js.mkError "parent failed").
Proof. repeat split. Qed.

(** C1, amended: when the confirmation resolves without an error field, the
    handler calls [onComplete] exactly once and ends by setting
    [isSubmitting] back to false, whatever widget events arrive meanwhile;
    when [onComplete] returns, the handler completes normally and leaves
    [error] unset if it was unset before the submission; when [onComplete]
    throws, the catch block treats what it threw as it treats a raised
    confirmation. *)
Theorem handleSubmit_success (stripe : Stripe) (elements : StripeElements)
    (onComplete : Callback) (pending : list WidgetEvent) (s : UIState)
    (res : PaymentResult) :
  confirmPayment stripe (confirm_options elements) = Resolves res ->
  res_error res = None ->
  let m := handleSubmit {| useStripe := Some stripe;
                           useElements := Some elements |}
             onComplete pending in
  let kept := if existsb is_Change pending then None else error s in
  count is_onComplete (effects_of m s) = 1%nat /\
  last (effects_of m s) E_preventDefault = E_setIsSubmitting false /\
  isSubmitting (state_after m s) = false /\
  match onComplete with
  | Normal _ =>
      fst (run m s) = Normal tt /\
      (error s = None -> error (state_after m s) = None)
  | Throw v => error_after_catch v kept (error (state_after m s))
  end.
Proof.
  intros Hres Hnone m kept; subst m kept.
  rewrite run_onComplete, run_last, run_isSubmitting, run_completion,
    run_error, Hres.
  destruct res as [e]; cbn in Hnone; subst e.
  repeat split.
  destruct onComplete as [[]|v]; cbn [attempt_leaves res_error].
  - split; [reflexivity|]; intros ->; now destruct (existsb _ _).
  - pose proof (catch_leaves_error v
                  (if existsb is_Change pending then None else error s)) as H.
    now destruct (catch_leaves v _) as [[c e] l].
Qed.

Lemma handleSubmit_success_witness :
  let m := handleSubmit (sample_hooks stripe_succeeds) returns [Change] in
  count is_onComplete (effects_of m idle) = 1%nat /\
  last (effects_of m idle) E_preventDefault = E_setIsSubmitting false /\
  isSubmitting (state_after m idle) = false /\
  fst (run m idle) = Normal tt /\
  (error idle = None -> error (state_after m idle) = None).
Proof.
  exact (handleSubmit_success stripe_succeeds sample_elements returns
           [Change] idle {| res_error := None |} eq_refl eq_refl).
Defined.

(** C2: when the confirmation resolves with a structured error, the handler
    sets [error] to an [Error] made of that error's message (the message
    itself when it has one), does not call [onComplete], and ends by setting
    [isSubmitting] back to false. *)
Theorem handleSubmit_error_result (stripe : Stripe) (elements : StripeElements)
    (onComplete : Callback) (pending : list WidgetEvent) (s : UIState)
    (res : PaymentResult) (err : StripeError) :
  confirmPayment stripe (confirm_options elements) = Resolves res ->
  res_error res = Some err ->
  let m := handleSubmit {| useStripe := Some stripe;
                           useElements := Some elements |}
             onComplete pending in
  fst (run m s) = Normal tt /\
  error (state_after m s) = Some (Js.new_Error (se_message err)) /\
  (forall msg, se_message err = Some msg ->
     error (state_after m s) = Some (Js.mkError msg)) /\
  count is_onComplete (effects_of m s) = 0%nat /\
  last (effects_of m s) E_preventDefault = E_setIsSubmitting false /\
  isSubmitting (state_after m s) = false.
Proof.
  intros Hres Herr m; subst m.
  rewrite run_onComplete, run_last, run_isSubmitting, run_completion,
    run_error, Hres.
  destruct res as [e]; cbn in Herr; subst e; cbn [attempt_leaves res_error].
  repeat split.
  intros msg Hmsg; cbn; now rewrite Hmsg.
Qed.

Lemma handleSubmit_error_result_witness :
  let m := handleSubmit (sample_hooks stripe_declines) returns [] in
  fst (run m idle) = Normal tt /\
  error (state_after m idle) = Some (Js.new_Error (Some "card_declined")) /\
  (forall msg, Some "card_declined" = Some msg ->
     error (state_after m idle) = Some (Js.mkError msg)) /\
  count is_onComplete (effects_of m idle) = 0%nat /\
  last (effects_of m idle) E_preventDefault = E_setIsSubmitting false /\
  isSubmitting (state_after m idle) = false.
Proof.
  exact (handleSubmit_error_result stripe_declines sample_elements returns []
           idle
           {| res_error := Some {| se_message := Some "card_declined" |} |}
           {| se_message := Some "card_declined" |} eq_refl eq_refl).
Defined.

(** C3, as stated, fails: what a confirmation raises need not be an
    [Error].  When it rejects with a string, the catch block reads no
    message, surfaces nothing ([error] stays unset, [setError] is not
    called) and makes [handleSubmit] itself reject. *)
Lemma non_error_rejection_shows_nothing :
  let m := handleSubmit (sample_hooks stripe_throws_string) returns [] in
  effects_of m idle =
    [E_preventDefault; E_setIsSubmitting true;
     E_confirmPayment (confirm_options sample_elements);
     E_setIsSubmitting false] /\
  error (state_after m idle) = None /\
  fst (run m idle) =
    Throw (Js.ThrownError (Js.TypeError Js.UndefinedMessage)).
Proof. repeat split. Qed.

(** C3, amended: when the confirmation raises, [onComplete] is not called
    and the handler ends by setting [isSubmitting] back to false.  When what
    was raised is an object with a string message (an [Error]), the handler
    completes normally and the displayed error is exactly
    "Payment unsupported" if the message contains
    "Failed to set the 'href' property", the raised error itself if it does
    not.  When what was raised is [null], [undefined] or a value whose
    message is missing or cannot be searched, nothing is surfaced: [error]
    is as it was (cleared only by a change event that arrived meanwhile) and
    the handler itself rejects with the catch block's [TypeError]. *)
Theorem handleSubmit_raises (stripe : Stripe) (elements : StripeElements)
    (onComplete : Callback) (pending : list WidgetEvent) (s : UIState)
    (v : Js.Thrown) :
  confirmPayment stripe (confirm_options elements) = Rejects v ->
  let m := handleSubmit {| useStripe := Some stripe;
                           useElements := Some elements |}
             onComplete pending in
  let kept := if existsb is_Change pending then None else error s in
  count is_onComplete (effects_of m s) = 0%nat /\
  last (effects_of m s) E_preventDefault = E_setIsSubmitting false /\
  isSubmitting (state_after m s) = false /\
  match v with
  | Js.ThrownError e =>
      fst (run m s) = Normal tt /\
      ((contains (Js.message e) href_text /\
        error (state_after m s) = Some (Js.mkError "Payment unsupported")) \/
       (~ contains (Js.message e) href_text /\
        error (state_after m s) = Some e))
  | Js.ThrownUnreadable u =>
      fst (run m s) = Throw (Js.ThrownError (Js.TypeError u)) /\
      error (state_after m s) = kept
  end.
Proof.
  intros Hrej m kept; subst m kept.
  rewrite run_onComplete, run_last, run_isSubmitting, run_completion,
    run_error, Hrej.
  repeat split.
  destruct v as [e|u]; cbn [attempt_leaves catch_leaves fst snd];
    [|split; reflexivity].
  split; [reflexivity|].
  destruct (caught_error_surfaced e) as [Hc|Hc]; [left|right]; now split.
Qed.

Lemma handleSubmit_raises_witness :
  let m := handleSubmit (sample_hooks stripe_blocked) returns [] in
  let raised := Js.mkError "Failed to set the 'href' property on 'Location'" in
  (count is_onComplete (effects_of m idle) = 0%nat /\
   last (effects_of m idle) E_preventDefault = E_setIsSubmitting false /\
   isSubmitting (state_after m idle) = false /\
   fst (run m idle) = Normal tt /\
   ((contains (Js.message raised) href_text /\
     error (state_after m idle) = Some (Js.mkError "Payment unsupported")) \/
    (~ contains (Js.message raised) href_text /\
     error (state_after m idle) = Some raised))) /\
  contains (Js.message raised) href_text /\
  error (state_after m idle) = Some (Js.mkError "Payment unsupported").
Proof.
  split; [|split].
  - exact (handleSubmit_raises stripe_blocked sample_elements returns [] idle
             (Js.ThrownError
                (Js.mkError "Failed to set the 'href' property on 'Location'"))
             eq_refl).
  - now exists "", " on 'Location'".
  - reflexivity.
Defined.

(** C4, as stated, fails: after a declined attempt, a submission that
    resolves successfully performs no [setError] at all and leaves the old
    error displayed. *)
Lemma stale_error_survives_success :
  let m := handleSubmit (sample_hooks stripe_succeeds) returns [] in
  error declined = Some (Js.mkError "card_declined") /\
  effects_of m declined =
    [E_preventDefault; E_setIsSubmitting true;
     E_confirmPayment (confirm_options sample_elements);
     E_onComplete; E_setIsSubmitting false] /\
  error (state_after m declined) = Some (Js.mkError "card_declined").
Proof. repeat split. Qed.

(** C4, amended: a submission does not touch [error] when it begins (the
    handler's effects up to the confirmation call are [preventDefault] and
    [setIsSubmitting(true)]); a resolution without error followed by an
    [onComplete] that returns leaves [error] as it was before the
    submission, cleared only if a change event arrived meanwhile; a
    resolution with an error result replaces it, and so does an [Error]
    raised by the confirmation or by [onComplete], by the rule of the catch
    block; a raised value without a readable message leaves it as it was. *)
Theorem handleSubmit_error_after (stripe : Stripe) (elements : StripeElements)
    (onComplete : Callback) (pending : list WidgetEvent) (s : UIState) :
  let m := handleSubmit {| useStripe := Some stripe;
                           useElements := Some elements |}
             onComplete pending in
  let kept := if existsb is_Change pending then None else error s in
  firstn 3 (effects_of m s) =
    [E_preventDefault; E_setIsSubmitting true;
     E_confirmPayment (confirm_options elements)] /\
  match confirmPayment stripe (confirm_options elements) with
  | Resolves res =>
      match res_error res with
      | Some err =>
          error (state_after m s) = Some (Js.new_Error (se_message err))
      | None =>
          match onComplete with
          | Normal _ => error (state_after m s) = kept
          | Throw v => error_after_catch v kept (error (state_after m s))
          end
      end
  | Rejects v => error_after_catch v kept (error (state_after m s))
  end.
Proof.
  intros m kept; subst m kept; rewrite run_effects, run_error.
  split; [reflexivity|].
  assert (Hcatch := fun v => catch_leaves_error v
            (if existsb is_Change pending then None else error s)).
  destruct (confirmPayment stripe (confirm_options elements))
    as [[[err|]]|v]; cbn [attempt_leaves res_error].
  - reflexivity.
  - destruct onComplete as [[]|v]; [reflexivity|].
    specialize (Hcatch v); now destruct (catch_leaves v _) as [[c e] l].
  - apply Hcatch.
Qed.

(** C5: while [stripe] or [elements] is unavailable, [handleSubmit] only
    calls [preventDefault] on the event: the component state is unchanged
    and [confirmPayment] is not invoked. *)
Theorem handleSubmit_unavailable (h : Hooks) (onComplete : Callback)
    (pending : list WidgetEvent) (s : UIState) :
  useStripe h = None \/ useElements h = None ->
  let m := handleSubmit h onComplete pending in
  fst (run m s) = Normal tt /\
  state_after m s = s /\
  effects_of m s = [E_preventDefault] /\
  count is_confirmPayment (effects_of m s) = 0%nat.
Proof.
  intros Hnull m; subst m; unfold state_after, effects_of, run, handleSubmit.
  destruct h as [[st|] [el|]]; cbn in Hnull;
    (destruct Hnull; discriminate) || (now destruct s).
Qed.

Lemma handleSubmit_unavailable_witness :
  let m := handleSubmit {| useStripe := None;
                           useElements := Some sample_elements |}
             returns [] in
  fst (run m declined) = Normal tt /\
  state_after m declined = declined /\
  effects_of m declined = [E_preventDefault] /\
  count is_confirmPayment (effects_of m declined) = 0%nat.
Proof.
  exact (handleSubmit_unavailable
           {| useStripe := None; useElements := Some sample_elements |}
           returns [] declined (or_introl eq_refl)).
Defined.

(** C9: a submission with both dependencies available sets [isSubmitting]
    to true and then calls [confirmPayment], with the elements handle, the
    fallback return URL and the redirect policy [if_required]; that call is
    the only one to the payment object in the whole run. *)
Theorem handleSubmit_confirms_once (stripe : Stripe)
    (elements : StripeElements) (onComplete : Callback)
    (pending : list WidgetEvent) (s : UIState) :
  let m := handleSubmit {| useStripe := Some stripe;
                           useElements := Some elements |}
             onComplete pending in
  let opts := {| opt_elements := elements;
                 confirmParams := {| return_url := "http://cartridge.gg" |};
                 redirect := if_required |} in
  exists rest : list Effect,
    effects_of m s =
      ([E_preventDefault; E_setIsSubmitting true; E_confirmPayment opts]
       ++ rest)%list /\
    count is_confirmPayment rest = 0%nat /\
    count is_confirmPayment (effects_of m s) = 1%nat.
Proof.
  intros m opts; subst m opts.
  rewrite (run_count _ _ _ _ _ is_confirmPayment) by reflexivity.
  rewrite run_effects.
  eexists; split; [rewrite <- app_assoc; reflexivity|].
  split; [|reflexivity].
  unfold count; rewrite !filter_app.
  now rewrite pending_effects, attempt_effects by reflexivity.
Qed.

(** ** The widget callbacks and the view *)

(** C8: from any state, the widget's change callback unsets [error] (and
    touches nothing else). *)
Theorem onChange_clears_error (s : UIState) :
  fst (run onChange s) = Normal tt /\
  error (state_after onChange s) = None /\
  isLoading (state_after onChange s) = isLoading s /\
  isSubmitting (state_after onChange s) = isSubmitting s.
Proof. repeat split. Qed.

(** C6: the button is disabled exactly when a submission is in flight, or
    [stripe] is unavailable, or [elements] is unavailable, or the widget has
    not reported ready; so it is disabled whenever [isLoading] holds, and
    enabled after the ready callback when no submission is in flight and
    both dependencies are available. *)
Theorem button_disabled_iff (price : PricingDetails) (h : Hooks)
    (s : UIState) :
  (disabled (button (render price h s)) = true <->
   isSubmitting s = true \/ useStripe h = None \/ useElements h = None \/
   isLoading s = true) /\
  (isLoading s = true -> disabled (button (render price h s)) = true) /\
  (isSubmitting s = false -> useStripe h <> None -> useElements h <> None ->
   disabled (button (render price h (state_after onReady s))) = false).
Proof.
  destruct h as [[st|] [el|]], s as [[] [] e]; cbn;
    repeat split; intros; try reflexivity; try discriminate;
    try congruence; intuition (discriminate || congruence || auto).
Qed.

(** C10: when the confirmation resolves with an error result that has no
    message, the component still enters the error state and shows the
    banner, with the empty string as its description. *)
Theorem handleSubmit_error_without_message (price : PricingDetails)
    (stripe : Stripe) (elements : StripeElements) (onComplete : Callback)
    (pending : list WidgetEvent) (s : UIState) (res : PaymentResult)
    (err : StripeError) :
  confirmPayment stripe (confirm_options elements) = Resolves res ->
  res_error res = Some err ->
  se_message err = None ->
  let h := {| useStripe := Some stripe; useElements := Some elements |} in
  let m := handleSubmit h onComplete pending in
  error (state_after m s) = Some (Js.mkError "") /\
  errorAlert (render price h (state_after m s)) =
    Some {| variant := "error"; title := "Stripe Checkout Error";
            description := "" |}.
Proof.
  intros Hres Herr Hmsg h m; subst h m; unfold render.
  rewrite run_error, Hres.
  destruct res as [e]; cbn in Herr; subst e; cbn [attempt_leaves res_error].
  cbn; now rewrite Hmsg.
Qed.

Lemma handleSubmit_error_without_message_witness :
  let h := sample_hooks stripe_declines_silently in
  let m := handleSubmit h returns [] in
  error (state_after m idle) = Some (Js.mkError "") /\
  errorAlert (render sample_price h (state_after m idle)) =
    Some {| variant := "error"; title := "Stripe Checkout Error";
            description := "" |}.
Proof.
  exact (handleSubmit_error_without_message sample_price
           stripe_declines_silently sample_elements returns [] idle
           {| res_error := Some {| se_message := None |} |}
           {| se_message := None |} eq_refl eq_refl eq_refl).
Defined.

(** ** Binary64 division by 100 *)

Section Binary64.

Import Number.

Lemma digits2_pos_size (p : positive) : digits2_pos p = Pos.size p.
Proof. induction p; simpl; congruence. Qed.

Lemma digits2_pos_bounds (p : positive) (k : Z) :
  2 ^ (k - 1) <= Z.pos p < 2 ^ k -> 1 <= k -> Z.pos (digits2_pos p) = k.
Proof.
  intros Hp Hk.
  assert (Hlog : Z.log2 (Z.pos p) = k - 1).
  { apply Z.log2_unique; [lia|].
    now replace (Z.succ (k - 1)) with k by lia. }
  rewrite digits2_pos_size.
  destruct p; simpl in Hlog; cbn [Pos.size];
    rewrite ?Pos2Z.inj_succ; lia.
Qed.

Lemma digits2_pos_range (p : positive) :
  2 ^ (Z.pos (digits2_pos p) - 1) <= Z.pos p < 2 ^ Z.pos (digits2_pos p).
Proof.
  rewrite digits2_pos_size.
  assert (H : Z.pos (Pos.size p) = Z.succ (Z.log2 (Z.pos p)))
    by (destruct p; simpl; rewrite ?Pos2Z.inj_succ; lia).
  rewrite H.
  replace (Z.succ (Z.log2 (Z.pos p)) - 1) with (Z.log2 (Z.pos p)) by lia.
  apply Z.log2_spec; lia.
Qed.

Lemma iter_xO (p k : positive) :
  Z.pos (Pos.iter xO p k) = Z.pos p * 2 ^ Z.pos k.
Proof.
  induction k as [|k IH] using Pos.peano_ind.
  - simpl; lia.
  - rewrite Pos.iter_succ, Pos2Z.inj_xO, IH, Pos2Z.inj_succ,
      Z.pow_succ_r by lia.
    lia.
Qed.

Lemma loc_of_shr_record_of_loc (m : Z) (l : location) :
  loc_of_shr_record (shr_record_of_loc m l) = l.
Proof. now destruct l as [|[]]. Qed.

Lemma shr_m_of_loc (m : Z) (l : location) :
  shr_m (shr_record_of_loc m l) = m.
Proof. now destruct l as [|[]]. Qed.

(** Rounding a mantissa of 53 bits keeps the exponent. *)
Lemma binary_round_aux_53 (s : bool) (m r : positive) (e : Z) (l : location) :
  Z.pos (digits2_pos m) = 53 -> -1074 <= e <= 971 ->
  round_nearest_even (Z.pos m) l = Z.pos r ->
  Z.pos (digits2_pos r) = 53 ->
  binary_round_aux prec emax s (Z.pos m) e l = S754_finite s r e.
Proof.
  intros Hm He Hr Hdr.
  unfold binary_round_aux, shr_fexp, Zdigits2.
  rewrite Hm.
  replace (fexp prec emax (53 + e) - e) with 0
    by (unfold fexp, emin, prec, emax; lia).
  cbn [shr].
  rewrite shr_m_of_loc, loc_of_shr_record_of_loc, Hr, Hdr.
  replace (fexp prec emax (53 + e) - e) with 0
    by (unfold fexp, emin, prec, emax; lia).
  cbn [shr shr_record_of_loc shr_m].
  replace (e <=? emax - prec) with true
    by (symmetry; apply Z.leb_le; unfold prec, emax; lia).
  reflexivity.
Qed.

(** Rounding a mantissa of 54 bits drops its last bit. *)
Lemma binary_round_aux_54 (s : bool) (m r : positive) (e : Z) (l : location) :
  Z.pos (digits2_pos m) = 54 -> -1075 <= e <= 970 ->
  (let mrs := shr_1 (shr_record_of_loc (Z.pos m) l) in
   round_nearest_even (shr_m mrs) (loc_of_shr_record mrs) = Z.pos r) ->
  Z.pos (digits2_pos r) = 53 ->
  binary_round_aux prec emax s (Z.pos m) e l = S754_finite s r (e + 1).
Proof.
  intros Hm He Hr Hdr.
  unfold binary_round_aux, shr_fexp, Zdigits2.
  rewrite Hm.
  replace (fexp prec emax (54 + e) - e) with 1
    by (unfold fexp, emin, prec, emax; lia).
  cbn [shr iter_pos].
  cbv zeta in Hr; rewrite Hr, Hdr.
  replace (fexp prec emax (53 + (e + 1)) - (e + 1)) with 0
    by (unfold fexp, emin, prec, emax; lia).
  cbn [shr shr_record_of_loc shr_m].
  replace (e + 1 <=? emax - prec) with true
    by (symmetry; apply Z.leb_le; unfold prec, emax; lia).
  reflexivity.
Qed.

(** An integer below [2^53] converts exactly, to a normal number. *)
Lemma of_Z_normal (c : Z) :
  1 <= c < 2 ^ 53 ->
  exists (m1 : positive) (e1 : Z),
    of_Z c = S754_finite false m1 e1 /\
    2 ^ 52 <= Z.pos m1 < 2 ^ 53 /\ -52 <= e1 <= 0 /\
    Z.pos m1 = c * 2 ^ (- e1).
Proof.
  intros Hc; destruct c as [|p|p]; try lia.
  pose proof (digits2_pos_range p) as Hd.
  set (d := Z.pos (digits2_pos p)) in *.
  assert (Hd1 : 1 <= d) by (subst d; lia).
  assert (Hd53 : d <= 53).
  { destruct (Z.le_gt_cases d 53) as [|Hgt]; [assumption|].
    assert (2 ^ 53 <= 2 ^ (d - 1)) by (apply Z.pow_le_mono_r; lia).
    lia. }
  unfold of_Z, binary_normalize, binary_round.
  fold d.
  replace (fexp prec emax (d + 0)) with (d - 53)
    by (unfold fexp, emin, prec, emax; lia).
  unfold shl_align.
  destruct (d - 53 - 0) as [|k|k] eqn:Hk; try lia.
  - exists p, 0.
    assert (d = 53) by lia.
    replace (d - 1) with 52 in Hd by lia; replace d with 53 in Hd by lia.
    repeat split; try lia.
    apply binary_round_aux_53; [lia | lia | reflexivity | lia].
  - exists (Pos.iter xO p k), (d - 53).
    assert (Hpow1 : 2 ^ (d - 1) * 2 ^ Z.pos k = 2 ^ 52)
      by (rewrite <- Z.pow_add_r by lia; f_equal; lia).
    assert (Hpow2 : 2 ^ d * 2 ^ Z.pos k = 2 ^ 53)
      by (rewrite <- Z.pow_add_r by lia; f_equal; lia).
    assert (Hpos : 0 < 2 ^ Z.pos k) by (apply Z.pow_pos_nonneg; lia).
    assert (Hm : 2 ^ 52 <= Z.pos (Pos.iter xO p k) < 2 ^ 53)
      by (rewrite iter_xO; nia).
    repeat split; try lia.
    + assert (Hdm : Z.pos (digits2_pos (Pos.iter xO p k)) = 53)
        by (apply digits2_pos_bounds; [exact Hm | lia]).
      apply binary_round_aux_53; [exact Hdm | lia | reflexivity | exact Hdm].
    + rewrite iter_xO; do 2 f_equal; lia.
Qed.

Lemma of_Z_100 : of_Z 100 = S754_finite false 7036874417766400 (-46).
Proof. reflexivity. Qed.

Lemma div_100 (m1 : positive) (e1 : Z) :
  2 ^ 52 <= Z.pos m1 < 2 ^ 53 -> -52 <= e1 <= 0 ->
  exists (m : positive) (e : Z),
    div (S754_finite false m1 e1) (of_Z 100) = S754_finite false m e /\
    2 ^ 52 <= Z.pos m < 2 ^ 53 /\
    ((e = e1 - 7 /\ -50 <= 100 * Z.pos m - 128 * Z.pos m1 <= 50) \/
     (e = e1 - 6 /\ 100 * 2 ^ 46 <= Z.pos m1 /\
      -50 <= 100 * Z.pos m - 64 * Z.pos m1 <= 50)).
Proof.
  intros Hm1 He1.
  rewrite of_Z_100; unfold div, SFdiv, SFdiv_core_binary.
  change (Zdigits2 (Z.pos m1)) with (Z.pos (digits2_pos m1)).
  rewrite (digits2_pos_bounds m1 53) by (change (53 - 1) with 52; lia).
  change (Zdigits2 (Z.pos 7036874417766400)) with 53.
  replace (Z.min (fexp prec emax (53 + e1 - (53 + -46))) (e1 - -46))
    with (e1 - 7) by (unfold fexp, emin, prec, emax; lia).
  replace (e1 - -46 - (e1 - 7)) with 53 by lia.
  rewrite Z.shiftl_mul_pow2 by lia.
  set (T := 128 * Z.pos m1).
  replace (Z.pos m1 * 2 ^ 53) with (T * 2 ^ 46) by (subst T; lia).
  change 7036874417766400 with (100 * 2 ^ 46).
  destruct (Z.div_eucl (T * 2 ^ 46) (100 * 2 ^ 46)) as [q r] eqn:Hqr.
  assert (Hq : q = T / 100).
  { rewrite <- (Z.div_mul_cancel_r T 100 (2 ^ 46)) by lia.
    unfold Z.div; now rewrite Hqr. }
  assert (Hr : r = T mod 100 * 2 ^ 46).
  { rewrite <- Z.mul_mod_distr_r by lia.
    unfold Z.modulo; now rewrite Hqr. }
  pose proof (Z.div_mod T 100 ltac:(lia)) as HT.
  pose proof (Z.mod_pos_bound T 100 ltac:(lia)) as Ht.
  rewrite <- Hq in HT; set (t := T mod 100) in *; clearbody t.
  clear Hqr Hq; subst r.
  assert (Hloc : new_location (100 * 2 ^ 46) (t * 2 ^ 46) =
                 if t =? 0 then loc_Exact else loc_Inexact (2 * t ?= 100)).
  { unfold new_location.
    change (Z.even (100 * 2 ^ 46)) with true.
    unfold new_location_even.
    replace (t * 2 ^ 46 =? 0) with (t =? 0)
      by (destruct (Z.eqb_spec t 0), (Z.eqb_spec (t * 2 ^ 46) 0); lia).
    replace (2 * (t * 2 ^ 46)) with (2 * t * 2 ^ 46) by lia.
    now rewrite <- Zmult_compare_compat_r by lia. }
  rewrite Hloc; clear Hloc.
  change (xorb false false) with false.
  set (loc := if t =? 0 then loc_Exact else loc_Inexact (2 * t ?= 100)).
  assert (Hq : 2 ^ 52 <= q < 2 ^ 54) by (subst T; lia).
  destruct q as [|pq|pq]; try lia.
  destruct (Z_lt_le_dec (Z.pos pq) (2 ^ 53)) as [Hlt|Hge].
  - (* the quotient has 53 bits *)
    set (rq := round_nearest_even (Z.pos pq) loc).
    assert (Hrq : -50 <= 100 * rq - T <= 50 /\ Z.pos pq <= rq).
    { subst rq loc; unfold round_nearest_even.
      destruct (Z.eqb_spec t 0); [lia|].
      destruct (Z.compare_spec (2 * t) 100);
        [destruct (Z.even (Z.pos pq))| |]; lia. }
    assert (Hrq53 : 2 ^ 52 <= rq < 2 ^ 53) by (subst T; lia).
    exists (Z.to_pos rq), (e1 - 7).
    rewrite Z2Pos.id by lia.
    split; [|split; [exact Hrq53|left; split; [reflexivity|apply Hrq]]].
    apply binary_round_aux_53.
    + apply digits2_pos_bounds; [exact (conj (proj1 Hq) Hlt) | lia].
    + lia.
    + fold rq; rewrite Z2Pos.id by lia; reflexivity.
    + apply digits2_pos_bounds; [rewrite Z2Pos.id by lia; exact Hrq53 | lia].
  - (* the quotient has 54 bits: its last bit is rounded away *)
    set (mrs := shr_1 (shr_record_of_loc (Z.pos pq) loc)).
    set (rq := round_nearest_even (shr_m mrs) (loc_of_shr_record mrs)).
    assert (Hrq : -100 <= 200 * rq - T <= 100 /\ Z.pos pq <= 2 * rq + 1).
    { subst rq mrs loc; unfold round_nearest_even.
      destruct (Z.eqb_spec t 0);
        [|destruct (Z.compare_spec (2 * t) 100)];
        destruct pq as [p|p|];
        cbn [shr_record_of_loc shr_1 shr_m loc_of_shr_record orb];
        try destruct (Z.even (Z.pos p)); lia. }
    assert (Hrq53 : 2 ^ 52 <= rq < 2 ^ 53) by (subst T; lia).
    exists (Z.to_pos rq), (e1 - 7 + 1).
    rewrite Z2Pos.id by lia.
    split; [|split; [exact Hrq53|right; subst T; lia]].
    apply binary_round_aux_54.
    + apply digits2_pos_bounds; [exact (conj Hge (proj2 Hq)) | lia].
    + lia.
    + fold mrs; fold rq; rewrite Z2Pos.id by lia; reflexivity.
    + apply digits2_pos_bounds; [rewrite Z2Pos.id by lia; exact Hrq53 | lia].
Qed.

End Binary64.

(** ** Decimal digits and the decimal point *)

Section Decimal.

Import Number.

Lemma decimal_fuel_S (f : nat) (n : Z) :
  decimal_fuel (S f) n =
  if n <? 10 then String (digit n) ""
  else decimal_fuel f (n / 10) ++ String (digit (n mod 10)) "".
Proof. reflexivity. Qed.

Lemma decimal_fuel_enough (f1 f2 : nat) (n : Z) :
  0 <= n < 2 ^ Z.of_nat (S f1) -> n < 2 ^ Z.of_nat (S f2) ->
  decimal_fuel (S f1) n = decimal_fuel (S f2) n.
Proof.
  revert f2 n; induction f1 as [|f1 IH]; intros f2 n H1 H2.
  - change (2 ^ Z.of_nat 1) with 2 in H1.
    rewrite !decimal_fuel_S.
    now replace (n <? 10) with true by (symmetry; apply Z.ltb_lt; lia).
  - rewrite (decimal_fuel_S (S f1)), (decimal_fuel_S f2).
    destruct (Z.ltb_spec n 10) as [|Hn]; [reflexivity|].
    rewrite Nat2Z.inj_succ, Z.pow_succ_r in H1, H2 by lia.
    destruct f2 as [|f2].
    + change (2 ^ Z.of_nat 0) with 1 in H2; lia.
    + rewrite (IH f2); [reflexivity| |];
        (split || idtac); try apply Z.div_pos; try lia;
        apply Z.div_lt_upper_bound; lia.
Qed.

Lemma decimal_small (n : Z) : n < 10 -> decimal n = String (digit n) "".
Proof.
  intros Hn; unfold decimal; rewrite decimal_fuel_S.
  now replace (n <? 10) with true by (symmetry; apply Z.ltb_lt; lia).
Qed.

Lemma decimal_step (n : Z) :
  10 <= n -> decimal n = decimal (n / 10) ++ String (digit (n mod 10)) "".
Proof.
  intros Hn; unfold decimal at 1; rewrite decimal_fuel_S.
  replace (n <? 10) with false by (symmetry; apply Z.ltb_ge; lia).
  f_equal.
  assert (Hlog : 1 <= Z.log2 n) by (apply Z.log2_le_pow2; simpl; lia).
  pose proof (Z.log2_spec n ltac:(lia)) as Hspec.
  destruct (Z.to_nat (Z.log2 n)) as [|k] eqn:Hk; [lia|].
  unfold decimal.
  apply decimal_fuel_enough.
  - split; [apply Z.div_pos; lia|].
    apply Z.div_lt_upper_bound; [lia|].
    rewrite Nat2Z.inj_succ, Z.pow_succ_r by lia.
    replace (Z.of_nat k) with (Z.log2 n - 1) by lia.
    replace (Z.succ (Z.log2 n)) with (Z.succ (Z.succ (Z.log2 n - 1)))
      in Hspec by lia.
    rewrite !Z.pow_succ_r in Hspec by lia.
    lia.
  - assert (Hd : 0 <= n / 10) by (apply Z.div_pos; lia).
    destruct (Z.eq_dec (n / 10) 0) as [->|Hne].
    + apply Z.pow_pos_nonneg; lia.
    + rewrite Nat2Z.inj_succ, Z2Nat.id by apply Z.log2_nonneg.
      apply Z.log2_spec; lia.
Qed.

Lemma decimal_nonempty (n : Z) : (1 <= String.length (decimal n))%nat.
Proof.
  unfold decimal; rewrite decimal_fuel_S.
  destruct (n <? 10); [simpl; lia|].
  generalize (decimal_fuel (Z.to_nat (Z.log2 n)) (n / 10)).
  induction s as [|a s IH]; simpl; lia.
Qed.

Lemma length_append (a b : string) :
  String.length (a ++ b) = (String.length a + String.length b)%nat.
Proof. induction a; simpl; congruence. Qed.

Lemma append_assoc (a b c : string) : (a ++ b) ++ c = a ++ (b ++ c).
Proof. induction a; simpl; congruence. Qed.

Lemma substring_prefix (a b : string) :
  substring 0 (String.length a) (a ++ b) = a.
Proof.
  induction a as [|c a IH]; simpl; [now destruct b|now rewrite IH].
Qed.

Lemma substring_suffix (a b : string) :
  substring (String.length a) (String.length b) (a ++ b) = b.
Proof.
  induction a as [|c a IH]; simpl; [|exact IH].
  induction b as [|c b IH]; simpl; [reflexivity|now rewrite IH].
Qed.

(** The digits of [n], a point, and its last two digits. *)
Lemma with_point_2 (n : Z) :
  0 <= n ->
  with_point n 2 =
  decimal (n / 100) ++ "." ++
  String (digit (n mod 100 / 10)) (String (digit (n mod 10)) "").
Proof.
  intros Hn; unfold with_point.
  destruct (Z_lt_le_dec n 10) as [H10|H10];
    [|destruct (Z_lt_le_dec n 100) as [H100|H100]].
  - rewrite (decimal_small n) by lia.
    replace (n / 100) with 0 by (symmetry; apply Z.div_small; lia).
    replace (n mod 100 / 10) with 0
      by (rewrite Z.mod_small by lia; symmetry; apply Z.div_small; lia).
    now rewrite Z.mod_small by lia.
  - rewrite (decimal_step n) by lia.
    rewrite (decimal_small (n / 10)) by (Z.div_mod_to_equations; lia).
    replace (n / 100) with 0 by (symmetry; apply Z.div_small; lia).
    now rewrite (Z.mod_small n 100) by lia.
  - rewrite (decimal_step n) by lia.
    rewrite (decimal_step (n / 10)) by (Z.div_mod_to_equations; lia).
    rewrite Z.div_div by lia; change (10 * 10) with 100.
    replace (n mod 100 / 10) with ((n / 10) mod 10)
      by (Z.div_mod_to_equations; lia).
    set (a := decimal (n / 100)).
    rewrite append_assoc.
    set (b := String (digit ((n / 10) mod 10)) "" ++ String (digit (n mod 10)) "").
    pose proof (decimal_nonempty (n / 100)) as Ha; fold a in Ha.
    cbv zeta; rewrite !length_append.
    change (String.length b) with 2%nat.
    replace (String.length a + 2 <=? 2)%nat with false
      by (symmetry; apply Nat.leb_gt; lia).
    rewrite !length_append.
    change (String.length b) with 2%nat.
    replace (String.length a + 2 - 2)%nat with (String.length a) by lia.
    rewrite substring_prefix.
    change 2%nat with (String.length b) at 1.
    now rewrite substring_suffix.
Qed.

End Decimal.

(** ** The cost breakdown *)

Example max_exact_cents_eq : max_exact_cents = 100 * 2 ^ 46.
Proof. reflexivity. Qed.

Section Currency.

Import Number.

(** Up to [100 * 2^46] cents, dividing by 100 in binary64 and fixing two
    decimals shows the exact amount. *)
Lemma formatCurrency_exact (c : Z) :
  0 <= c <= max_exact_cents ->
  formatCurrency (of_Z c) = spec_formatCurrency c.
Proof.
  intros Hc.
  destruct (Z.eq_dec c 0) as [->|H0]; [reflexivity|].
  destruct (Z.eq_dec c max_exact_cents) as [->|Hmax];
    [vm_compute; reflexivity|].
  unfold max_exact_cents in *.
  destruct (of_Z_normal c) as (m1 & e1 & Hof & Hm1 & He1 & Hc1); [lia|].
  destruct (div_100 m1 e1 Hm1 He1) as (m & e & Hdiv & Hm & Hcase).
  unfold formatCurrency, spec_formatCurrency.
  rewrite Hof, Hdiv; unfold toFixed.
  assert (HP : 1 <= 2 ^ (- e1))
    by (apply (Z.pow_le_mono_r 2 0 (- e1)); lia).
  set (P := 2 ^ (- e1)) in *.
  assert (He : e <= -6) by (destruct Hcase; lia).
  assert (Hbig : at_least_1e21 m e = false).
  { unfold at_least_1e21.
    replace (0 <=? e) with false by (symmetry; apply Z.leb_gt; lia).
    apply Z.leb_gt.
    assert (1 <= 2 ^ (- e)) by (apply (Z.pow_le_mono_r 2 0 (- e)); lia).
    nia. }
  assert (Hn : nearest_scaled m e 2 = c).
  { unfold nearest_scaled.
    replace (0 <=? e) with false by (symmetry; apply Z.leb_gt; lia).
    change (10 ^ Z.of_nat 2) with 100.
    symmetry.
    destruct Hcase as [[-> Herr]|(-> & Hlarge & Herr)].
    - replace (2 ^ (- (e1 - 7))) with (128 * P)
        by (subst P; replace (- (e1 - 7)) with (7 + - e1) by lia;
            rewrite Z.pow_add_r by lia; reflexivity).
      replace (2 ^ (1 - (e1 - 7))) with (256 * P)
        by (subst P; replace (1 - (e1 - 7)) with (8 + - e1) by lia;
            rewrite Z.pow_add_r by lia; reflexivity).
      apply Z.div_unique
        with (r := 2 * (Z.pos m * 100) + 128 * P - 256 * P * c); lia.
    - assert (HP2 : 2 <= P).
      { destruct (Z.eq_dec P 1) as [HP1|]; [rewrite HP1 in Hc1|]; lia. }
      replace (2 ^ (- (e1 - 6))) with (64 * P)
        by (subst P; replace (- (e1 - 6)) with (6 + - e1) by lia;
            rewrite Z.pow_add_r by lia; reflexivity).
      replace (2 ^ (1 - (e1 - 6))) with (128 * P)
        by (subst P; replace (1 - (e1 - 6)) with (7 + - e1) by lia;
            rewrite Z.pow_add_r by lia; reflexivity).
      apply Z.div_unique
        with (r := 2 * (Z.pos m * 100) + 64 * P - 128 * P * c); lia. }
  rewrite Hbig, Hn, with_point_2 by lia.
  reflexivity.
Qed.

End Currency.

(** C7, as stated, fails: 7036874417766401 cents is an integer that binary64
    holds exactly, and its hundredth, rounded to binary64, lies nearer to
    70368744177664.02 than to 70368744177664.01. *)
Lemma formatCurrency_not_exact :
  let cents := Number.of_Z 7036874417766401 in
  let price := {| baseCostInCents := cents;
                  processingFeeInCents := Number.of_Z 0;
                  totalInCents := cents |} in
  cents = S754_finite false 7036874417766401 0 /\
  cost_text (costBreakdown (render price (sample_hooks stripe_succeeds) idle))
    = "$70368744177664.02" /\
  spec_formatCurrency 7036874417766401 = "$70368744177664.01".
Proof. vm_compute; repeat split. Qed.

(** C7, amended: for integer amounts of cents from 0 to 7036874417766400
    ([100 * 2^46]), the cost breakdown shows each of the base cost, the
    processing fee and the total as the amount divided by 100 with exactly
    two decimals after a dollar sign. *)
Theorem CostBreakdown_exact (base fee total : Z) (h : Hooks) (s : UIState) :
  0 <= base <= max_exact_cents ->
  0 <= fee <= max_exact_cents ->
  0 <= total <= max_exact_cents ->
  costBreakdown
    (render {| baseCostInCents := Number.of_Z base;
               processingFeeInCents := Number.of_Z fee;
               totalInCents := Number.of_Z total |} h s) =
  {| cost_text := spec_formatCurrency base;
     fee_text := spec_formatCurrency fee;
     total_text := spec_formatCurrency total |}.
Proof.
  intros Hbase Hfee Htotal; unfold render, CostBreakdown.
  cbn [costBreakdown baseCostInCents processingFeeInCents totalInCents].
  now rewrite !formatCurrency_exact.
Qed.

Lemma CostBreakdown_exact_witness :
  costBreakdown (render sample_price (sample_hooks stripe_succeeds) idle) =
  {| cost_text := "$9.99"; fee_text := "$0.58"; total_text := "$10.57" |}.
Proof.
  apply (CostBreakdown_exact 999 58 1057);
    unfold max_exact_cents; split; discriminate.
Defined.

(** Beyond [10^21] dollars [toFixed] switches to exponential notation, with
    the fewest digits that give the number back. *)
Example formatCurrency_exponential :
  formatCurrency (Number.of_Z (2 ^ 90)) = "$1.2379400392853803e+25" /\
  formatCurrency (Number.of_Z (10 ^ 26)) = "$1e+24" /\
  Number.toFixed (Number.of_Z (10 ^ 24)) 2 = "1e+24" /\
  Number.toFixed (Number.of_Z (2 ^ 1023)) 2 = "8.98846567431158e+307".
Proof. vm_compute; repeat split. Qed.


(** * Further properties *)

(** ** The handler's completion and effects *)

(** X1: [handleSubmit] catches what it can read.  It completes normally
    when the guard returns, when the confirmation resolves with an error
    result, when it resolves without and [onComplete] returns, and whenever
    what the confirmation or [onComplete] raised is an object with a string
    message.  When what was raised is [null], [undefined] or a value whose
    message is missing or cannot be searched, [handleSubmit] itself rejects
    with the catch block's [TypeError]; in that case the handler has not
    called [setError] and has reset [isSubmitting]. *)
Theorem handleSubmit_completion (h : Hooks) (onComplete : Callback)
    (pending : list WidgetEvent) (s : UIState) :
  let m := handleSubmit h onComplete pending in
  let caught v :=
    match v with
    | Js.ThrownError _ => fst (run m s) = Normal tt
    | Js.ThrownUnreadable u =>
        fst (run m s) = Throw (Js.ThrownError (Js.TypeError u)) /\
        count is_setError (effects_of m s) =
          List.length (filter is_Change pending) /\
        error (state_after m s) =
          (if existsb is_Change pending then None else error s) /\
        isSubmitting (state_after m s) = false
    end in
  match useStripe h, useElements h with
  | Some stripe, Some elements =>
      match confirmPayment stripe (confirm_options elements) with
      | Resolves res =>
          match res_error res, onComplete with
          | Some _, _ | None, Normal _ => fst (run m s) = Normal tt
          | None, Throw v => caught v
          end
      | Rejects v => caught v
      end
  | _, _ => fst (run m s) = Normal tt
  end.
Proof.
  intros m caught; subst m caught.
  destruct h as [[stripe|] [elements|]]; try reflexivity.
  cbn [useStripe useElements].
  rewrite run_completion, run_error, run_isSubmitting.
  assert (Hset : forall l : list Effect,
            filter is_setError l = [] ->
            count is_setError
              (([E_preventDefault; E_setIsSubmitting true;
                 E_confirmPayment (confirm_options elements)]
                ++ map event_effect pending)
               ++ l ++ [E_setIsSubmitting false]) =
            List.length (filter is_Change pending)).
  { intros l Hl; unfold count; rewrite !filter_app, Hl.
    cbn [filter is_setError app]; rewrite app_nil_r.
    clear; induction pending as [|[] evs IH]; simpl; congruence. }
  rewrite run_effects.
  destruct (confirmPayment stripe (confirm_options elements))
    as [[[err|]]|[err|u]];
    [ | destruct onComplete as [[]|[err|u]] | | ];
    cbn [attempt_leaves catch_leaves res_error fst snd];
    try reflexivity;
    (split; [reflexivity|]; split; [now apply Hset|]; split; reflexivity).
Qed.

(** X7: whatever the hooks returned and however the confirmation settles,
    the first thing [handleSubmit] does is [e.preventDefault()], and it does
    so exactly once. *)
Theorem handleSubmit_preventDefault_first (h : Hooks) (onComplete : Callback)
    (pending : list WidgetEvent) (s : UIState) :
  exists rest : list Effect,
    effects_of (handleSubmit h onComplete pending) s
      = E_preventDefault :: rest /\
    count is_preventDefault rest = 0%nat.
Proof.
  destruct h as [[stripe|] [elements|]];
    try (exists []; split; reflexivity).
  rewrite run_effects.
  eexists; split; [cbn [app]; reflexivity|].
  unfold count; cbn [filter is_preventDefault]; rewrite !filter_app.
  now rewrite pending_effects, attempt_effects by reflexivity.
Qed.

(** ** The blocked-navigation check *)

(** X8: when the confirmation raises an [Error], the displayed error is
    "Payment unsupported" as soon as the raised message contains
    "Failed to set the 'href' property" anywhere, whatever precedes and
    follows it; when the message does not contain it, the raised error is
    displayed unchanged. *)
Theorem href_text_anywhere (stripe : Stripe) (elements : StripeElements)
    (onComplete : Callback) (pending : list WidgetEvent) (s : UIState)
    (e : Js.Error) :
  confirmPayment stripe (confirm_options elements) =
    Rejects (Js.ThrownError e) ->
  let m := handleSubmit {| useStripe := Some stripe;
                           useElements := Some elements |}
             onComplete pending in
  let needle := "Failed to set the 'href' property" in
  ((exists pre post, Js.message e = pre ++ needle ++ post) ->
   error (state_after m s) = Some (Js.mkError "Payment unsupported")) /\
  ((forall pre post, Js.message e <> pre ++ needle ++ post) ->
   error (state_after m s) = Some e).
Proof.
  intros Hrej m needle; subst m.
  rewrite run_error, Hrej; cbn [attempt_leaves catch_leaves fst snd].
  unfold caught_error; fold needle; split.
  - intros H; apply includes_iff in H; now rewrite H.
  - intros H.
    destruct (Js.includes (Js.message e) needle) eqn:Hin; [|reflexivity].
    apply includes_iff in Hin; destruct Hin as (pre & post & Heq).
    now destruct (H pre post).
Qed.

Lemma href_text_anywhere_witness :
  let m := handleSubmit (sample_hooks stripe_blocked) returns [] in
  let needle := "Failed to set the 'href' property" in
  let e := Js.mkError "Failed to set the 'href' property on 'Location'" in
  ((exists pre post, Js.message e = pre ++ needle ++ post) ->
   error (state_after m idle) = Some (Js.mkError "Payment unsupported")) /\
  ((forall pre post, Js.message e <> pre ++ needle ++ post) ->
   error (state_after m idle) = Some e).
Proof.
  exact (href_text_anywhere stripe_blocked sample_elements returns [] idle
           (Js.mkError "Failed to set the 'href' property on 'Location'")
           eq_refl).
Defined.

(** ** Invariants of the component's state *)

Lemma handleSubmit_isSubmitting (h : Hooks) (onComplete : Callback)
    (pending : list WidgetEvent) (s : UIState) :
  isSubmitting s = false ->
  isSubmitting (state_after (handleSubmit h onComplete pending) s) = false.
Proof.
  intros Hs; destruct h as [[stripe|] [elements|]]; try exact Hs.
  apply run_isSubmitting.
Qed.

Lemma handleSubmit_isLoading (h : Hooks) (onComplete : Callback)
    (pending : list WidgetEvent) (s : UIState) :
  isLoading (state_after (handleSubmit h onComplete pending) s) =
  match useStripe h, useElements h with
  | Some _, Some _ => isLoading s && negb (existsb is_Ready pending)
  | _, _ => isLoading s
  end.
Proof.
  destruct h as [[stripe|] [elements|]]; try reflexivity.
  apply run_isLoading.
Qed.

(** X2: between events [isSubmitting] is false: starting from a state in
    which it is false, it is false again after any sequence of widget
    callbacks and submissions, however each confirmation settles. *)
Theorem isSubmitting_false_at_rest (evs : list Event) (s : UIState) :
  isSubmitting s = false -> isSubmitting (after_events evs s) = false.
Proof.
  unfold after_events; revert s.
  induction evs as [|ev evs IH]; intros s Hs; [exact Hs|].
  cbn [fold_left]; apply IH.
  destruct ev as [[]|h cb pending]; [exact Hs | exact Hs |].
  now apply handleSubmit_isSubmitting.
Qed.

Lemma isSubmitting_false_at_rest_witness :
  isSubmitting
    (after_events [Submit (sample_hooks stripe_declines) parent_fails [Change];
                   Widget Ready;
                   Submit (sample_hooks stripe_blocked) returns []] initialState)
  = false.
Proof.
  exact (isSubmitting_false_at_rest
           [Submit (sample_hooks stripe_declines) parent_fails [Change]; Widget Ready;
            Submit (sample_hooks stripe_blocked) returns []] initialState eq_refl).
Defined.

(** X4: nothing in the component sets [isLoading] back to true: once the
    widget has reported ready, [isLoading] stays false through any sequence
    of events. *)
Theorem isLoading_never_returns (evs : list Event) (s : UIState) :
  isLoading s = false -> isLoading (after_events evs s) = false.
Proof.
  unfold after_events; revert s.
  induction evs as [|ev evs IH]; intros s Hs; [exact Hs|].
  cbn [fold_left]; apply IH.
  destruct ev as [[]|h cb pending]; [reflexivity | exact Hs |].
  cbn [handle]; rewrite handleSubmit_isLoading, Hs.
  now destruct (useStripe h), (useElements h).
Qed.

Lemma isLoading_never_returns_witness :
  isLoading
    (after_events [Submit (sample_hooks stripe_succeeds) returns [Change];
                   Widget Change] idle)
  = false.
Proof.
  exact (isLoading_never_returns
           [Submit (sample_hooks stripe_succeeds) returns [Change]; Widget Change]
           idle eq_refl).
Defined.

(** X3: until the widget reports ready the button stays disabled: from a
    loading state, after any sequence of events none of which is or carries
    a ready callback, [isLoading] still holds and the button is disabled
    whatever the hooks return. *)
Theorem button_disabled_until_ready (price : PricingDetails) (h : Hooks)
    (evs : list Event) (s : UIState) :
  isLoading s = true ->
  forallb (fun ev => negb (mentions_Ready ev)) evs = true ->
  isLoading (after_events evs s) = true /\
  disabled (button (render price h (after_events evs s))) = true.
Proof.
  intros Hs Hevs.
  assert (H : isLoading (after_events evs s) = true).
  { unfold after_events; revert s Hs.
    induction evs as [|ev evs IH]; intros s Hs; [exact Hs|].
    cbn [forallb] in Hevs; apply andb_prop in Hevs as [Hev Hevs].
    cbn [fold_left]; apply (IH Hevs).
    destruct ev as [[]|h' cb pending]; cbn in Hev; try discriminate;
      [exact Hs|].
    cbn [handle]; rewrite handleSubmit_isLoading, Hs.
    destruct (useStripe h'), (useElements h'); try reflexivity.
    now rewrite Hev. }
  split; [exact H|].
  cbn; rewrite H; now rewrite !orb_true_r.
Qed.

Lemma button_disabled_until_ready_witness :
  let evs := [Widget Change; Submit (sample_hooks stripe_declines) parent_fails [Change]] in
  isLoading (after_events evs initialState) = true /\
  disabled (button (render sample_price (sample_hooks stripe_succeeds)
                      (after_events evs initialState))) = true.
Proof.
  exact (button_disabled_until_ready sample_price
           (sample_hooks stripe_succeeds)
           [Widget Change; Submit (sample_hooks stripe_declines) parent_fails [Change]]
           initialState eq_refl eq_refl).
Defined.

(** X5: after a submission with both dependencies available the button is
    disabled only if the widget has still not reported ready; in a ready
    state it is enabled again however the confirmation settled, so a failed
    attempt can always be retried. *)
Theorem button_after_submission (price : PricingDetails) (stripe : Stripe)
    (elements : StripeElements) (onComplete : Callback)
    (pending : list WidgetEvent) (s : UIState) :
  let h := {| useStripe := Some stripe; useElements := Some elements |} in
  disabled (button (render price h
                      (state_after (handleSubmit h onComplete pending) s)))
  = isLoading s && negb (existsb is_Ready pending).
Proof.
  intros h; subst h; cbn [render button disabled useStripe useElements is_null].
  now rewrite run_isLoading, run_isSubmitting.
Qed.

(** ** The state while a confirmation is pending *)

Lemma replay_app (l1 l2 : list Effect) (s : UIState) :
  replay (l1 ++ l2) s = replay l2 (replay l1 s).
Proof. apply fold_left_app. Qed.

Lemma replay_pending (evs : list WidgetEvent) (s : UIState) :
  replay (map event_effect evs) s = fold_left apply_event evs s.
Proof.
  revert s; induction evs as [|[] evs IH]; intros s;
    [reflexivity | apply IH ..].
Qed.

(** The logged setter calls account for the state a submission ends in. *)
Lemma replay_handleSubmit (h : Hooks) (onComplete : Callback)
    (pending : list WidgetEvent) (s : UIState) :
  replay (effects_of (handleSubmit h onComplete pending) s) s =
  state_after (handleSubmit h onComplete pending) s.
Proof.
  destruct h as [[stripe|] [elements|]]; try reflexivity.
  unfold state_after, effects_of; rewrite handleSubmit_run; cbv zeta.
  destruct (confirmPayment stripe (confirm_options elements))
    as [[[err|]]|[err|u]];
    [ | destruct onComplete as [[]|[err|u]] | | ];
    cbn -[confirm_options fold_left map app replay];
    rewrite !replay_app, replay_pending; reflexivity.
Qed.

Lemma replay_keeps_isSubmitting (l : list Effect) (s : UIState) :
  forallb (fun e => negb (is_setIsSubmitting e)) l = true ->
  isSubmitting (replay l s) = isSubmitting s.
Proof.
  revert s; induction l as [|e l IH]; intros s H; [reflexivity|].
  cbn [forallb] in H; apply andb_prop in H as [He Hl].
  cbn [replay fold_left]; fold (replay l (apply_effect s e)).
  rewrite (IH _ Hl); now destruct e.
Qed.

Lemma forallb_firstn {A} (p : A -> bool) (n : nat) (l : list A) :
  forallb p l = true -> forallb p (firstn n l) = true.
Proof.
  revert n; induction l as [|a l IH]; intros [|n] H; try reflexivity.
  cbn [forallb] in H; apply andb_prop in H as [Ha Hl].
  cbn [firstn forallb]; now rewrite Ha, IH.
Qed.

(** Between [setIsSubmitting(true)] and the closing [setIsSubmitting(false)]
    a valid submission calls no [setIsSubmitting]. *)
Lemma handleSubmit_shape (stripe : Stripe) (elements : StripeElements)
    (onComplete : Callback) (pending : list WidgetEvent) (s : UIState) :
  exists body : list Effect,
    effects_of (handleSubmit {| useStripe := Some stripe;
                                useElements := Some elements |}
                  onComplete pending) s =
      ([E_preventDefault; E_setIsSubmitting true] ++ body
       ++ [E_setIsSubmitting false])%list /\
    forallb (fun e => negb (is_setIsSubmitting e)) body = true.
Proof.
  assert (Hp : forallb (fun e => negb (is_setIsSubmitting e))
                 (map event_effect pending) = true)
    by (induction pending as [|[] evs IH]; simpl; auto).
  rewrite run_effects.
  set (l := snd (attempt_leaves _ _ _)).
  assert (Hl : forallb (fun e => negb (is_setIsSubmitting e)) l = true).
  { subst l.
    destruct (confirmPayment stripe (confirm_options elements))
      as [[[err|]]|[err|u]];
      [ | destruct onComplete as [[]|[err|u]] | | ]; reflexivity. }
  exists (E_confirmPayment (confirm_options elements)
          :: map event_effect pending ++ l)%list; split.
  - cbn [app]; now rewrite <- app_assoc.
  - cbn [forallb]; rewrite forallb_app, Hp, Hl; reflexivity.
Qed.

(** X6: in a submission with both dependencies available, at every point
    after [setIsSubmitting(true)] and before the closing
    [setIsSubmitting(false)] (when [confirmPayment] is called, while it is
    pending, and when the outcome is recorded) [isSubmitting] is true and
    the button is disabled. *)
Theorem isSubmitting_while_pending (price : PricingDetails) (stripe : Stripe)
    (elements : StripeElements) (onComplete : Callback)
    (pending : list WidgetEvent) (s : UIState) (k : nat) :
  let h := {| useStripe := Some stripe; useElements := Some elements |} in
  let l := effects_of (handleSubmit h onComplete pending) s in
  (2 <= k < List.length l)%nat ->
  isSubmitting (replay (firstn k l) s) = true /\
  disabled (button (render price h (replay (firstn k l) s))) = true.
Proof.
  intros h l Hk; subst h l.
  destruct (handleSubmit_shape stripe elements onComplete pending s)
    as (body & Hl & Hb).
  rewrite Hl in *.
  assert (H : isSubmitting
                (replay (firstn k
                   ([E_preventDefault; E_setIsSubmitting true] ++ body
                    ++ [E_setIsSubmitting false])) s) = true).
  { rewrite !length_app in Hk; cbn [List.length] in Hk.
    rewrite firstn_app; cbn [List.length].
    rewrite (firstn_all2 (n := k) [E_preventDefault; E_setIsSubmitting true])
      by (cbn [List.length]; lia).
    rewrite firstn_app.
    replace (k - 2 - List.length body)%nat with 0%nat by lia.
    cbn [firstn]; rewrite app_nil_r, replay_app.
    rewrite replay_keeps_isSubmitting by (now apply forallb_firstn).
    reflexivity. }
  split; [exact H|].
  cbn [render button disabled]; now rewrite H.
Qed.

Lemma isSubmitting_while_pending_witness :
  let h := sample_hooks stripe_declines in
  let l := effects_of (handleSubmit h parent_fails [Change; Ready]) declined in
  isSubmitting (replay (firstn 4 l) declined) = true /\
  disabled (button (render sample_price h (replay (firstn 4 l) declined)))
  = true.
Proof.
  apply (isSubmitting_while_pending sample_price stripe_declines
           sample_elements parent_fails [Change; Ready] declined 4).
  cbn; lia.
Defined.

(** ** More on the displayed amounts *)

Section Amounts.

Import Number.

Lemma binary_round_aux_opp (s : bool) (m e : Z) (l : location) :
  binary_round_aux prec emax (negb s) m e l =
  SFopp (binary_round_aux prec emax s m e l).
Proof.
  unfold binary_round_aux.
  destruct (shr_fexp prec emax m e l) as [mrs' e'].
  destruct (shr_fexp prec emax _ e' loc_Exact) as [mrs'' e''].
  destruct (shr_m mrs''); try reflexivity.
  now destruct (e'' <=? emax - prec).
Qed.

Lemma of_Z_opp (c : Z) : c <> 0 -> of_Z (- c) = SFopp (of_Z c).
Proof.
  intros Hc; destruct c as [|p|p]; [contradiction| |];
    unfold of_Z, binary_normalize, binary_round; cbn [Z.opp];
    destruct (shl_align p 0 _) as [mz ez].
  - apply (binary_round_aux_opp false).
  - apply (binary_round_aux_opp true).
Qed.

Lemma div_100_opp (x : number) :
  div (SFopp x) (of_Z 100) = SFopp (div x (of_Z 100)).
Proof.
  rewrite of_Z_100;
    destruct x as [s|s| |s m e]; [now destruct s|now destruct s|reflexivity|].
  unfold div, SFdiv, SFopp.
  destruct (SFdiv_core_binary prec emax (Z.pos m) e _ _) as [[mz ez] lz].
  destruct s; cbn [negb xorb].
  - apply (binary_round_aux_opp true).
  - apply (binary_round_aux_opp false).
Qed.

(** X9: a negative amount is shown with the minus sign after the dollar
    sign: for integer cents from 1 to [100 * 2^46], [formatCurrency] of the
    negated amount is "$-" followed by the exact two-decimal amount. *)
Theorem formatCurrency_negative (c : Z) :
  1 <= c <= max_exact_cents ->
  formatCurrency (of_Z (- c)) =
  "$-" ++ decimal (c / 100) ++ "." ++
  String (digit (c mod 100 / 10)) (String (digit (c mod 10)) "").
Proof.
  intros Hc.
  pose proof (formatCurrency_exact c ltac:(lia)) as Hpos.
  unfold max_exact_cents in Hc.
  destruct (of_Z_normal c) as (m1 & e1 & Hof & Hm1 & He1 & _); [lia|].
  destruct (div_100 m1 e1 Hm1 He1) as (m & e & Hdiv & _).
  unfold formatCurrency in *.
  rewrite of_Z_opp, div_100_opp by lia.
  rewrite Hof, Hdiv in *; cbn [SFopp negb]; unfold toFixed in *.
  set (shown := if at_least_1e21 m e then _ else _) in *.
  unfold spec_formatCurrency in Hpos.
  change ("$" ++ "" ++ shown) with (String "$" shown) in Hpos.
  change ("$" ++ "-" ++ shown) with (String "$" (String "-" shown)).
  injection Hpos as ->; reflexivity.
Qed.

Lemma formatCurrency_negative_witness :
  formatCurrency (of_Z (- 999)) = "$-9.99".
Proof.
  apply (formatCurrency_negative 999); unfold max_exact_cents; split;
    discriminate.
Defined.

(** X10: for every integer amount of cents that binary64 holds exactly
    (from 0 to [2^53 - 1]), the displayed amount has exactly two decimals
    and is the exact amount or one cent beside it. *)
Theorem formatCurrency_within_one_cent (c : Z) :
  0 <= c < 2 ^ 53 ->
  exists shown : Z,
    0 <= shown /\ c - 1 <= shown <= c + 1 /\
    formatCurrency (of_Z c) = spec_formatCurrency shown.
Proof.
  intros Hc.
  destruct (Z.eq_dec c 0) as [->|H0];
    [exists 0; repeat split; lia|].
  destruct (of_Z_normal c) as (m1 & e1 & Hof & Hm1 & He1 & Hc1); [lia|].
  destruct (div_100 m1 e1 Hm1 He1) as (m & e & Hdiv & Hm & Hcase).
  assert (HP : 1 <= 2 ^ (- e1))
    by (apply (Z.pow_le_mono_r 2 0 (- e1)); lia).
  set (P := 2 ^ (- e1)) in *.
  assert (He : e <= -6) by (destruct Hcase; lia).
  assert (Hbig : at_least_1e21 m e = false).
  { unfold at_least_1e21.
    replace (0 <=? e) with false by (symmetry; apply Z.leb_gt; lia).
    apply Z.leb_gt.
    assert (1 <= 2 ^ (- e)) by (apply (Z.pow_le_mono_r 2 0 (- e)); lia).
    nia. }
  assert (Hn : c - 1 <= nearest_scaled m e 2 <= c + 1).
  { unfold nearest_scaled.
    replace (0 <=? e) with false by (symmetry; apply Z.leb_gt; lia).
    change (10 ^ Z.of_nat 2) with 100.
    destruct Hcase as [[-> Herr]|(-> & Hlarge & Herr)].
    - replace (2 ^ (- (e1 - 7))) with (128 * P)
        by (subst P; replace (- (e1 - 7)) with (7 + - e1) by lia;
            rewrite Z.pow_add_r by lia; reflexivity).
      replace (2 ^ (1 - (e1 - 7))) with (256 * P)
        by (subst P; replace (1 - (e1 - 7)) with (8 + - e1) by lia;
            rewrite Z.pow_add_r by lia; reflexivity).
      split; [apply Z.div_le_lower_bound; lia|].
      apply Z.lt_succ_r, Z.div_lt_upper_bound; lia.
    - replace (2 ^ (- (e1 - 6))) with (64 * P)
        by (subst P; replace (- (e1 - 6)) with (6 + - e1) by lia;
            rewrite Z.pow_add_r by lia; reflexivity).
      replace (2 ^ (1 - (e1 - 6))) with (128 * P)
        by (subst P; replace (1 - (e1 - 6)) with (7 + - e1) by lia;
            rewrite Z.pow_add_r by lia; reflexivity).
      split; [apply Z.div_le_lower_bound; lia|].
      apply Z.lt_succ_r, Z.div_lt_upper_bound; lia. }
  exists (nearest_scaled m e 2).
  split; [lia|]; split; [exact Hn|].
  unfold formatCurrency, spec_formatCurrency.
  rewrite Hof, Hdiv; unfold toFixed.
  rewrite Hbig, with_point_2 by lia.
  reflexivity.
Qed.

Lemma formatCurrency_within_one_cent_witness :
  exists shown : Z,
    0 <= shown /\ 7036874417766401 - 1 <= shown <= 7036874417766401 + 1 /\
    formatCurrency (of_Z 7036874417766401) = spec_formatCurrency shown.
Proof.
  apply (formatCurrency_within_one_cent 7036874417766401);
    split; [discriminate|reflexivity].
Defined.

End Amounts.

Section Reading.

Import Number.

Lemma digit_value_digit (d : Z) :
  0 <= d < 10 -> digit_value (digit d) = Some d.
Proof.
  intros Hd.
  assert (H : d = 0 \/ d = 1 \/ d = 2 \/ d = 3 \/ d = 4 \/ d = 5 \/ d = 6 \/
              d = 7 \/ d = 8 \/ d = 9) by lia.
  repeat (destruct H as [->|H]; [reflexivity|]); now subst.
Qed.

Lemma digits_value_app (acc : Z) (a b : string) :
  digits_value acc (a ++ b) = digits_value (digits_value acc a) b.
Proof.
  revert acc; induction a as [|ch a IH]; intros acc; [reflexivity|].
  cbn [append digits_value]; now destruct (digit_value ch).
Qed.

Lemma digits_value_decimal (n : Z) :
  0 <= n -> digits_value 0 (decimal n) = n.
Proof.
  induction n as [n IH] using (well_founded_induction (Z.lt_wf 0)).
  intros Hn; destruct (Z_lt_le_dec n 10) as [Hlt|Hge].
  - rewrite decimal_small by exact Hlt.
    cbn [digits_value]; rewrite digit_value_digit by lia; lia.
  - rewrite decimal_step, digits_value_app by exact Hge.
    rewrite IH by (Z.div_mod_to_equations; lia).
    cbn [digits_value].
    rewrite digit_value_digit by (Z.div_mod_to_equations; lia).
    Z.div_mod_to_equations; lia.
Qed.

Lemma digits_value_spec (c : Z) :
  0 <= c -> digits_value 0 (spec_formatCurrency c) = c.
Proof.
  intros Hc; unfold spec_formatCurrency.
  change ("$" ++ decimal (c / 100) ++ "." ++
          String (digit (c mod 100 / 10)) (String (digit (c mod 10)) ""))
    with (String "$" (decimal (c / 100) ++
          String "." (String (digit (c mod 100 / 10))
                        (String (digit (c mod 10)) "")))).
  cbn [digits_value]; change (digit_value "$") with (@None Z); cbv iota.
  rewrite digits_value_app, digits_value_decimal
    by (Z.div_mod_to_equations; lia).
  cbn [digits_value]; change (digit_value ".") with (@None Z); cbv iota.
  rewrite !digit_value_digit by (Z.div_mod_to_equations; lia).
  Z.div_mod_to_equations; lia.
Qed.

(** X11: up to [100 * 2^46] cents the display determines the amount: its
    digits, read as one integer, are the cents, so two different amounts
    are never displayed alike. *)
Theorem formatCurrency_determines_cents (a b : Z) :
  0 <= a <= max_exact_cents ->
  0 <= b <= max_exact_cents ->
  digits_value 0 (formatCurrency (of_Z a)) = a /\
  (formatCurrency (of_Z a) = formatCurrency (of_Z b) -> a = b).
Proof.
  intros Ha Hb.
  assert (H : forall c, 0 <= c <= max_exact_cents ->
                digits_value 0 (formatCurrency (of_Z c)) = c)
    by (intros c Hc; rewrite formatCurrency_exact by exact Hc;
        apply digits_value_spec; lia).
  split; [now apply H|].
  intros Heq; rewrite <- (H a Ha), <- (H b Hb); now rewrite Heq.
Qed.

Lemma formatCurrency_determines_cents_witness :
  digits_value 0 (formatCurrency (of_Z 999)) = 999 /\
  (formatCurrency (of_Z 999) = formatCurrency (of_Z 1057) -> 999 = 1057).
Proof.
  apply (formatCurrency_determines_cents 999 1057);
    unfold max_exact_cents; split; discriminate.
Defined.

End Reading.

(** ** The error banner *)

(** X12: after a submission with both dependencies available the banner
    shows what the attempt left, always under the title
    "Stripe Checkout Error": the error result's message (empty when it has
    none); for an [Error] raised by the confirmation or by [onComplete],
    "Payment unsupported" when its message contains
    "Failed to set the 'href' property" and the raised message when it does
    not; after a success whose [onComplete] returns, or a raised value
    without a readable message, what was displayed before, or nothing once a
    change event arrived.  A change event always removes the banner. *)
Theorem banner_after_submission (price : PricingDetails) (stripe : Stripe)
    (elements : StripeElements) (onComplete : Callback)
    (pending : list WidgetEvent) (s : UIState) :
  let h := {| useStripe := Some stripe; useElements := Some elements |} in
  let m := handleSubmit h onComplete pending in
  let shown := errorAlert (render price h (state_after m s)) in
  let banner text :=
    Some {| variant := "error"; title := "Stripe Checkout Error";
            description := text |} in
  let kept := if existsb is_Change pending then None
              else errorAlert (render price h s) in
  let caught v :=
    match v with
    | Js.ThrownError e =>
        (contains (Js.message e) href_text /\
         shown = banner "Payment unsupported") \/
        (~ contains (Js.message e) href_text /\
         shown = banner (Js.message e))
    | Js.ThrownUnreadable _ => shown = kept
    end in
  match confirmPayment stripe (confirm_options elements) with
  | Resolves res =>
      match res_error res with
      | Some err =>
          shown = banner match se_message err with
                         | Some msg => msg
                         | None => EmptyString
                         end
      | None =>
          match onComplete with
          | Normal _ => shown = kept
          | Throw v => caught v
          end
      end
  | Rejects v => caught v
  end /\
  errorAlert (render price h (state_after onChange (state_after m s))) = None.
Proof.
  intros h m shown banner kept caught.
  subst h m shown banner kept caught; split; [|reflexivity].
  cbn [render errorAlert]; rewrite run_error.
  assert (Hcaught : forall v,
    match v with
    | Js.ThrownError e =>
        (contains (Js.message e) href_text /\
         match snd (fst (catch_leaves v
                 (if existsb is_Change pending then None else error s))) with
         | Some err =>
             Some {| variant := "error"; title := "Stripe Checkout Error";
                     description := Js.message err |}
         | None => None
         end =
         Some {| variant := "error"; title := "Stripe Checkout Error";
                 description := "Payment unsupported" |}) \/
        (~ contains (Js.message e) href_text /\
         match snd (fst (catch_leaves v
                 (if existsb is_Change pending then None else error s))) with
         | Some err =>
             Some {| variant := "error"; title := "Stripe Checkout Error";
                     description := Js.message err |}
         | None => None
         end =
         Some {| variant := "error"; title := "Stripe Checkout Error";
                 description := Js.message e |})
    | Js.ThrownUnreadable _ =>
        match snd (fst (catch_leaves v
                (if existsb is_Change pending then None else error s))) with
        | Some err =>
            Some {| variant := "error"; title := "Stripe Checkout Error";
                    description := Js.message err |}
        | None => None
        end =
        (if existsb is_Change pending then None
         else match error s with
              | Some err =>
                  Some {| variant := "error"; title := "Stripe Checkout Error";
                          description := Js.message err |}
              | None => None
              end)
    end).
  { intros [e|u]; cbn [catch_leaves fst snd].
    - destruct (caught_error_surfaced e) as [Hc|Hc]; [left|right]; now split.
    - now destruct (existsb is_Change pending). }
  destruct (confirmPayment stripe (confirm_options elements))
    as [[[[[msg|]]|]]|v]; cbn [attempt_leaves res_error se_message].
  - reflexivity.
  - reflexivity.
  - destruct onComplete as [[]|v]; cbn [fst snd].
    + now destruct (existsb is_Change pending).
    + specialize (Hcaught v).
      destruct v as [e|u]; cbn [catch_leaves fst snd] in *; exact Hcaught.
  - apply Hcaught.
Qed.
